(** * Proxy checker: a shallow embedding of [src/main.py]

    The development follows the class [ProxyChecker]:

    - [PyStr]: the [str] methods the program calls ([strip], [split],
      the [in] test);
    - [PyFloat]: the float arithmetic of the throughput computation
      (binary64, through the Standard Library's [SpecFloat]);
    - [read_proxy_file], [save_proxy], [check_proxy]: the methods
      themselves, with the counters of [self] passed explicitly, the
      network, the disk and the clocks given by an oracle, and every
      observable action recorded in a trace of events.

    A character of a [string] stands for a code point below 256. *)

From Stdlib Require Import ZArith String Ascii List Bool Lia.
From Stdlib Require Import Floats.SpecFloat.
From stdpp Require Import gmap strings list.
From Equations Require Import Equations.
Import ListNotations.

Local Open Scope string_scope.
Local Open Scope list_scope.
Local Open Scope Z_scope.

(** ** Python exceptions and results *)

(** The exception classes the program raises or catches.  The payload is
    the message ([str(e)]); [OtherException] carries the class name too,
    as the last handler of [check_proxy] prints it.  All of them derive
    from [Exception]: what does not ([asyncio.CancelledError],
    [KeyboardInterrupt], [SystemExit]) is not modelled. *)
Inductive exn : Type :=
| FileNotFoundError (msg : string)
| ValueError (msg : string)
| TimeoutError
| ClientError (msg : string)
| IndexError (msg : string)
| ZeroDivisionError (msg : string)
| OverflowError (msg : string)
| OtherException (name msg : string).

Inductive result (A : Type) : Type :=
| Ok (a : A)
| Raise (e : exn).
Arguments Ok {A} a.
Arguments Raise {A} e.

(** ** Strings *)

Module PyStr.

(** [str.isspace] on one character, for the code points below 256:
    U+0009..U+000D, U+001C..U+0020, U+0085 and U+00A0. *)
Definition is_space (c : ascii) : bool :=
  let n := nat_of_ascii c in
  ((9 <=? n) && (n <=? 13) || (28 <=? n) && (n <=? 32)
   || (n =? 133) || (n =? 160))%nat.

Fixpoint lstrip (s : string) : string :=
  match s with
  | EmptyString => EmptyString
  | String c rest => if is_space c then lstrip rest else s
  end.

Fixpoint rstrip (s : string) : string :=
  match s with
  | EmptyString => EmptyString
  | String c rest =>
      match rstrip rest with
      | EmptyString => if is_space c then EmptyString else String c EmptyString
      | kept => String c kept
      end
  end.

(** [s.strip()]: leading and trailing whitespace removed. *)
Definition strip (s : string) : string := rstrip (lstrip s).

(** [s.split(sep)] for a one-character separator: one field more than
    there are separators, empty fields kept. *)
Fixpoint split (sep : ascii) (s : string) : list string :=
  match s with
  | EmptyString => [EmptyString]
  | String c rest =>
      if Ascii.eqb c sep then EmptyString :: split sep rest
      else match split sep rest with
           | [] => [String c EmptyString]
           | field :: fields => String c field :: fields
           end
  end.

(** [sep in s] for a one-character [sep]. *)
Fixpoint contains (sep : ascii) (s : string) : bool :=
  match s with
  | EmptyString => false
  | String c rest => Ascii.eqb c sep || contains sep rest
  end.

(** Number of occurrences of a character. *)
Fixpoint count (sep : ascii) (s : string) : nat :=
  match s with
  | EmptyString => O
  | String c rest => ((if Ascii.eqb c sep then 1 else 0) + count sep rest)%nat
  end.

Definition is_empty (s : string) : bool :=
  match s with EmptyString => true | String _ _ => false end.

End PyStr.

(** ** [read_proxy_file] *)

(** The file system as [read_proxy_file] sees it: a path either does not
    exist or holds a text file, given by the lines that iterating over it
    yields. *)
Definition filesystem : Type := string -> option (list string).

Definition colon : ascii := ":"%char.

(** The test of lines 84-86 on an already stripped line. *)
Definition valid_proxy (line : string) : bool :=
  if PyStr.contains colon line then
    let split_line := PyStr.split colon line in
    (length split_line =? 2)%nat || (length split_line =? 4)%nat
  else false.

(** The [async for] loop of lines 82-87; [proxies] is the list being
    appended to. *)
Fixpoint read_lines (lines : list string) (proxies : list string) : list string :=
  match lines with
  | [] => proxies
  | line :: rest =>
      let line := PyStr.strip line in
      if PyStr.contains colon line then
        let split_line := PyStr.split colon line in
        if (length split_line =? 2)%nat || (length split_line =? 4)%nat
        then read_lines rest (proxies ++ [line])
        else read_lines rest proxies
      else read_lines rest proxies
  end.

(** [list(set(proxies))]: the elements of the set in the order the set
    yields them, which the program does not rely on. *)
Definition list_of_set (proxies : list string) : list string :=
  elements (list_to_set proxies : gset string).

(** The body of the [try] statement, lines 81-91. *)
Definition read_proxy_file_try (fs : filesystem) (filepath : string)
  : result (list string) :=
  match fs filepath with
  | None => Raise (FileNotFoundError "No such file or directory")
  | Some lines =>
      let proxies := read_lines lines [] in
      match proxies with
      | [] => Raise (ValueError "The file does not contain any valid proxies.")
      | _ => Ok (list_of_set proxies)
      end
  end.

(** [read_proxy_file], lines 64-96: the two [except] clauses re-raise
    with a message of their own; any other exception passes through. *)
Definition read_proxy_file (fs : filesystem) (filepath : string)
  : result (list string) :=
  match read_proxy_file_try fs filepath with
  | Ok proxies => Ok proxies
  | Raise (FileNotFoundError _) =>
      Raise (FileNotFoundError ("The file " +:+ filepath +:+ " does not exist."))
  | Raise (ValueError e) =>
      Raise (ValueError ("An error occurred while reading the proxy file: " +:+ e))
  | Raise e => Raise e
  end.

(** The lines of the input that are not blank. *)
Definition non_blank (line : string) : bool :=
  negb (PyStr.is_empty (PyStr.strip line)).

(** The number of fields of a line, as [split] counts them. *)
Definition fields (line : string) : nat :=
  length (PyStr.split colon line).

(** The input of the example in the specification. *)
Definition example_lines : list string :=
  ["1.2.3.4:8080"; "1.2.3.4:8080"; "bad-line"; "5.6.7.8:1080:user:pass"].

(** ** Floats *)

(** Python's [float] is IEEE 754 binary64: [spec_float] at precision 53
    and maximal exponent 1024. *)
Module PyFloat.

Definition float : Type := spec_float.
Definition prec : Z := 53.
Definition emax : Z := 1024.

(** [float(n)] for an [int]: rounded to nearest, ties to even; an [int]
    beyond the range raises. *)
Definition of_int (n : Z) : result float :=
  match binary_normalize prec emax n 0 false with
  | S754_infinity _ => Raise (OverflowError "int too large to convert to float")
  | x => Ok x
  end.

Definition sub (x y : float) : float := SFsub prec emax x y.

Definition is_zero (x : float) : bool :=
  match x with
  | S754_zero _ => true
  | _ => false
  end.

(** [x / y] on floats: a zero divisor of either sign raises. *)
Definition truediv (x y : float) : result float :=
  if is_zero y then Raise (ZeroDivisionError "float division by zero")
  else Ok (SFdiv prec emax x y).

(** The integer nearest to [m * 2^e], ties to even. *)
Definition nearest_even (m : positive) (e : Z) : Z :=
  if 0 <=? e then Z.pos m * 2 ^ e
  else
    let d := 2 ^ (- e) in
    let q := Z.pos m / d in
    let r := Z.pos m mod d in
    match 2 * r ?= d with
    | Lt => q
    | Gt => q + 1
    | Eq => if Z.even q then q else q + 1
    end.

(** [round(x)] with one argument: an [int], or an exception for an
    infinity or a NaN. *)
Definition round (x : float) : result Z :=
  match x with
  | S754_zero _ => Ok 0
  | S754_infinity _ => Raise (OverflowError "cannot convert float infinity to integer")
  | S754_nan => Raise (ValueError "cannot convert float NaN to integer")
  | S754_finite s m e =>
      Ok (if s then - nearest_even m e else nearest_even m e)
  end.

(** The float [60.0], which the [int] 60 is converted to. *)
Definition sixty : float :=
  Eval vm_compute in binary_normalize prec emax 60 0 false.

End PyFloat.

Definition bind_result {A B : Type} (r : result A) (f : A -> result B) : result B :=
  match r with
  | Ok a => f a
  | Raise e => Raise e
  end.

(** ** The state, the environment and the trace of [check_proxy] *)

(** The attributes of [self] that [__init__] sets and nothing assigns
    afterwards (lines 27-29 and 33). *)
Record settings : Type := Settings {
  request_timeout : Z;
  max_retry : Z;
  retry_delay : Z;
  start_time : PyFloat.float
}.

(** The counters of [self] (lines 30-32). *)
Record stats : Type := Stats {
  total_proxies_checked : Z;
  good_proxies : Z;
  proxies_checked_per_minute : Z
}.

(** The counters as [__init__] leaves them. *)
Definition init_stats : stats := Stats 0 0 0.

(** [ProxyChecker()] with the default arguments of line 15. *)
Definition default_settings (start : PyFloat.float) : settings :=
  Settings 5 1 3 start.

(** The members of [aiohttp_socks.ProxyType] the program selects. *)
Inductive ProxyType : Type := HTTP | SOCKS4 | SOCKS5.

(** What [session.get] does on one attempt: a response with its status
    and the whole seconds it took ([response_time], line 150), or an
    exception. *)
Inductive response : Type :=
| Status (status response_time : Z)
| Fails (e : exn).

(** The environment of one call of [check_proxy].  Each field is indexed
    by the value of [retry_count] during the attempt. *)
Record world : Type := World {
  (** the outcome of the request made through the proxy *)
  net : Z -> response;
  (** appending to the output file: [None] when the write succeeds,
      [Some e] when it raises [IOError] with message [e] *)
  disk : Z -> option string;
  (** [time.perf_counter()] as read in the [finally] block *)
  perf_counter : Z -> PyFloat.float
}.

(** The lines the program prints. *)
Inductive report : Type :=
| Success (proxy : string) (response_time : Z)           (* line 154 *)
| FailureStatus (proxy : string) (response_time : Z)     (* line 159 *)
| FailureTimeout (proxy : string) (request_timeout : Z)  (* line 163 *)
| FailureError (proxy err : string)                      (* line 168 *)
| FailureException (proxy name err : string)             (* line 172 *)
| ExceededRetries (proxy : string)                       (* line 182 *)
| ErrorSavingProxy (e : string).                         (* line 62 *)

(** The observable actions of [check_proxy], in the order they happen. *)
Inductive event : Type :=
| Acquire                                   (* entering [async with semaphore] *)
| Release                                   (* leaving it *)
| Get (proxy_type : ProxyType) (host port : string)
      (username password : option string)   (* the request through the proxy *)
| Print (r : report)
| Write (text : string)                     (* [outfile.write] *)
| Sleep (seconds : Z)                       (* [asyncio.sleep] *)
| Title (checked good per_minute : Z).      (* [os.system("title ...")] *)

(** ** A monad for counters, exceptions and the trace *)

Definition M (A : Type) : Type := stats -> result A * stats * list event.

Definition ret {A : Type} (a : A) : M A := fun st => (Ok a, st, []).

Definition raise {A : Type} (e : exn) : M A := fun st => (Raise e, st, []).

Definition bind {A B : Type} (m : M A) (f : A -> M B) : M B := fun st =>
  match m st with
  | (Ok a, st1, tr1) =>
      match f a st1 with
      | (r, st2, tr2) => (r, st2, tr1 ++ tr2)
      end
  | (Raise e, st1, tr1) => (Raise e, st1, tr1)
  end.

Definition emit (e : event) : M unit := fun st => (Ok tt, st, [e]).

Definition lift {A : Type} (r : result A) : M A := fun st => (r, st, []).

Definition get_stats : M stats := fun st => (Ok st, st, []).

Definition put_stats (st : stats) : M unit := fun _ => (Ok tt, st, []).

Declare Scope py_scope.
Delimit Scope py_scope with py.
Notation "x <- m ;; k" := (bind m (fun x => k))
  (at level 100, m at level 99, right associativity) : py_scope.
Notation "m ;; k" := (bind m (fun _ => k))
  (at level 100, right associativity) : py_scope.

(** [try: body  except Exception as e: handler e]. *)
Definition try_except {A : Type} (body : M A) (handler : exn -> M A) : M A :=
  fun st =>
    match body st with
    | (Ok a, st1, tr1) => (Ok a, st1, tr1)
    | (Raise e, st1, tr1) =>
        match handler e st1 with
        | (r, st2, tr2) => (r, st2, tr1 ++ tr2)
        end
    end.

(** [try: body  finally: cleanup]: the cleanup always runs, and an
    exception it raises replaces the outcome of the body. *)
Definition try_finally {A : Type} (body : M A) (cleanup : M unit) : M A :=
  fun st =>
    match body st with
    | (r, st1, tr1) =>
        match cleanup st1 with
        | (Ok _, st2, tr2) => (r, st2, tr1 ++ tr2)
        | (Raise e, st2, tr2) => (Raise e, st2, tr1 ++ tr2)
        end
    end.

(** [async with semaphore: body]: the permit is taken on entry and given
    back on exit, whether the body ends normally or with an exception. *)
Definition with_semaphore {A : Type} (body : M A) : M A :=
  try_finally (bind (emit Acquire) (fun _ => body)) (emit Release).

(** ** [save_proxy] and [check_proxy] *)

Local Open Scope py_scope.

Definition newline : string := String (ascii_of_nat 10) EmptyString.

(** [save_proxy], lines 58-62: one [write] of the proxy and a newline;
    an [IOError] is printed and goes no further. *)
Definition save_proxy (w : world) (retry_count : Z) (proxy : string) : M unit :=
  match disk w retry_count with
  | None => emit (Write (proxy +:+ newline))
  | Some e => emit (Print (ErrorSavingProxy e))
  end.

(** [l[i]] on a list. *)
Definition getitem (l : list string) (i : nat) : result string :=
  match l !! i with
  | Some x => Ok x
  | None => Raise (IndexError "list index out of range")
  end.

(** Lines 127-135: the connector type for the protocol name. *)
Definition aio_proxy_type (proxy_type : string) : result ProxyType :=
  if String.eqb proxy_type "HTTP" || String.eqb proxy_type "HTTPS" then Ok HTTP
  else if String.eqb proxy_type "SOCKS4" then Ok SOCKS4
  else if String.eqb proxy_type "SOCKS5" then Ok SOCKS5
  else Raise (ValueError "Invalid proxy type").

(** Lines 136-151: the session and its one request. *)
Definition request (w : world) (retry_count : Z) (t : ProxyType)
    (host port : string) (username password : option string) : M (Z * Z) :=
  emit (Get t host port username password) ;;
  match net w retry_count with
  | Status status response_time => ret (status, response_time)
  | Fails e => raise e
  end.

(** How one pass through the [try] statement ends: with the [return] of
    line 161, or in a handler, which has done [retry_count += 1]. *)
Inductive flow : Type := Returned | Retry.

(** The body of the [try] statement, lines 119-161. *)
Definition try_body (w : world) (proxy proxy_type : string) (retry_count : Z)
  : M flow :=
  with_semaphore (
    let proxy_split := PyStr.split colon proxy in
    host <- lift (getitem proxy_split 0) ;;
    port <- lift (getitem proxy_split 1) ;;
    username <- (if negb (length proxy_split =? 4)%nat then ret None
                 else u <- lift (getitem proxy_split 2) ;; ret (Some u)) ;;
    password <- (if negb (length proxy_split =? 4)%nat then ret None
                 else p <- lift (getitem proxy_split 3) ;; ret (Some p)) ;;
    t <- lift (aio_proxy_type proxy_type) ;;
    resp <- request w retry_count t host port username password ;;
    (if fst resp =? 200 then
       emit (Print (Success proxy (snd resp))) ;;
       save_proxy w retry_count proxy ;;
       st <- get_stats ;;
       put_stats (Stats (total_proxies_checked st) (good_proxies st + 1)
                        (proxies_checked_per_minute st))
     else
       emit (Print (FailureStatus proxy (snd resp)))) ;;
    ret Returned).

Definition class_name (e : exn) : string :=
  match e with
  | FileNotFoundError _ => "FileNotFoundError"
  | ValueError _ => "ValueError"
  | TimeoutError => "TimeoutError"
  | ClientError _ => "ClientError"
  | IndexError _ => "IndexError"
  | ZeroDivisionError _ => "ZeroDivisionError"
  | OverflowError _ => "OverflowError"
  | OtherException name _ => name
  end.

Definition message (e : exn) : string :=
  match e with
  | FileNotFoundError msg | ValueError msg | ClientError msg | IndexError msg
  | ZeroDivisionError msg | OverflowError msg | OtherException _ msg => msg
  | TimeoutError => ""
  end.

(** The three [except] clauses, lines 162-174.  Each prints, adds one to
    [retry_count] (the [Retry] it returns) and sleeps. *)
Definition handler (cfg : settings) (proxy : string) (e : exn) : M flow :=
  match e with
  | TimeoutError =>
      emit (Print (FailureTimeout proxy (request_timeout cfg))) ;;
      emit (Sleep (retry_delay cfg)) ;;
      ret Retry
  | ClientError err | ValueError err =>
      emit (Print (FailureError proxy err)) ;;
      emit (Sleep (retry_delay cfg)) ;;
      ret Retry
  | _ =>
      emit (Print (FailureException proxy (class_name e) (message e))) ;;
      emit (Sleep (retry_delay cfg)) ;;
      ret Retry
  end.

(** Lines 177-178:
    [round(total / ((time.perf_counter() - start_time) / 60))]. *)
Definition proxies_per_minute (total : Z) (now start : PyFloat.float) : result Z :=
  bind_result (PyFloat.truediv (PyFloat.sub now start) PyFloat.sixty) (fun minutes =>
  bind_result (PyFloat.of_int total) (fun total_f =>
  bind_result (PyFloat.truediv total_f minutes) PyFloat.round)).

(** The [finally] clause, lines 175-180. *)
Definition finally_block (cfg : settings) (w : world) (retry_count : Z) : M unit :=
  st <- get_stats ;;
  let total := total_proxies_checked st + 1 in
  put_stats (Stats total (good_proxies st) (proxies_checked_per_minute st)) ;;
  rate <- lift (proxies_per_minute total (perf_counter w retry_count) (start_time cfg)) ;;
  put_stats (Stats total (good_proxies st) rate) ;;
  emit (Title total (good_proxies st) rate).

(** One pass through the body of the [while] loop, lines 118-180. *)
Definition iteration (cfg : settings) (w : world) (proxy proxy_type : string)
    (retry_count : Z) : M flow :=
  try_finally
    (try_except (try_body w proxy proxy_type retry_count) (handler cfg proxy))
    (finally_block cfg w retry_count).

(** The events [tr] followed by the run [x]. *)
Definition after {A : Type} (tr : list event)
    (x : result A * stats * list event) : result A * stats * list event :=
  match x with
  | (r, st, tr') => (r, st, tr ++ tr')
  end.

Definition inspect {A : Type} (a : A) : {b : A | a = b} := exist _ a eq_refl.

(** The [while] loop of lines 117-182, entered with the given value of
    [retry_count].  It ends because [max_retry + 1 - retry_count]
    decreases on every pass that does not leave the function. *)
Equations? check_proxy_loop (cfg : settings) (w : world)
    (proxy proxy_type : string) (retry_count : Z) (st : stats)
  : result unit * stats * list event
  by wf (Z.to_nat (max_retry cfg + 1 - retry_count)) lt :=
  check_proxy_loop cfg w proxy proxy_type retry_count st
    with inspect (retry_count <=? max_retry cfg) := {
    | exist _ true _
        with iteration cfg w proxy proxy_type retry_count st := {
        | (Ok Returned, st1, tr1) => (Ok tt, st1, tr1)
        | (Ok Retry, st1, tr1) =>
            after tr1 (check_proxy_loop cfg w proxy proxy_type (retry_count + 1) st1)
        | (Raise e, st1, tr1) => (Raise e, st1, tr1) }
    | exist _ false _ => (Ok tt, st, [Print (ExceededRetries proxy)]) }.
Proof. lia. Qed.

(** [check_proxy], lines 98-182. *)
Definition check_proxy (cfg : settings) (w : world) (proxy proxy_type : string)
  : M unit :=
  check_proxy_loop cfg w proxy proxy_type 0.

(** ** Reading a trace *)

Definition is_acquire (e : event) : bool :=
  match e with Acquire => true | _ => false end.

Definition is_get (e : event) : bool :=
  match e with Get _ _ _ _ _ => true | _ => false end.

Definition is_sleep (e : event) : bool :=
  match e with Sleep _ => true | _ => false end.

Definition is_give_up (e : event) : bool :=
  match e with Print (ExceededRetries _) => true | _ => false end.

(** The passes through the [try] statement. *)
Definition attempts (tr : list event) : nat := length (List.filter is_acquire tr).

(** The requests sent. *)
Definition probes (tr : list event) : nat := length (List.filter is_get tr).

(** The retry delays slept. *)
Definition sleeps (tr : list event) : nat := length (List.filter is_sleep tr).

(** The reports of line 182. *)
Definition give_ups (tr : list event) : nat := length (List.filter is_give_up tr).

(** What was appended to the output file, in order. *)
Fixpoint written (tr : list event) : list string :=
  match tr with
  | [] => []
  | Write text :: rest => text :: written rest
  | _ :: rest => written rest
  end.

(** The counters shown by each title update, in order. *)
Fixpoint titles (tr : list event) : list (Z * Z) :=
  match tr with
  | [] => []
  | Title checked good _ :: rest => (checked, good) :: titles rest
  | _ :: rest => titles rest
  end.

(** The permits the task holds after the events [tr], when it held
    [held] before them. *)
Fixpoint permits (held : nat) (tr : list event) : nat :=
  match tr with
  | [] => held
  | Acquire :: rest => permits (S held) rest
  | Release :: rest => permits (Nat.pred held) rest
  | _ :: rest => permits held rest
  end.

(** The number of permits held at each [asyncio.sleep] of the trace. *)
Fixpoint permits_at_sleeps (held : nat) (tr : list event) : list nat :=
  match tr with
  | [] => []
  | Acquire :: rest => permits_at_sleeps (S held) rest
  | Release :: rest => permits_at_sleeps (Nat.pred held) rest
  | Sleep _ :: rest => held :: permits_at_sleeps held rest
  | _ :: rest => permits_at_sleeps held rest
  end.

(** The number of permits held at each request of the trace. *)
Fixpoint permits_at_requests (held : nat) (tr : list event) : list nat :=
  match tr with
  | [] => []
  | Acquire :: rest => permits_at_requests (S held) rest
  | Release :: rest => permits_at_requests (Nat.pred held) rest
  | Get _ _ _ _ _ :: rest => held :: permits_at_requests held rest
  | _ :: rest => permits_at_requests held rest
  end.

(** ** The shapes of one pass *)

(** The line a handler prints for the exception it caught. *)
Definition failure_report (cfg : settings) (proxy : string) (e : exn) : report :=
  match e with
  | TimeoutError => FailureTimeout proxy (request_timeout cfg)
  | ClientError err | ValueError err => FailureError proxy err
  | _ => FailureException proxy (class_name e) (message e)
  end.

Definition good_plus_one (st : stats) : stats :=
  Stats (total_proxies_checked st) (good_proxies st + 1)
        (proxies_checked_per_minute st).

(** What the [try] statement with its handlers can do in one pass: the
    five ways through lines 119-174.  [try_cases] below shows that there
    is no other. *)
Inductive try_shape (cfg : settings) (w : world) (proxy proxy_type : string)
    (k : Z) (st : stats) : result flow * stats * list event -> Prop :=
| try_refused t host port u p status rt :
    (2 <= fields proxy)%nat ->
    net w k = Status status rt -> status <> 200 ->
    aio_proxy_type proxy_type = Ok t ->
    try_shape cfg w proxy proxy_type k st
      (Ok Returned, st,
       [Acquire; Get t host port u p; Print (FailureStatus proxy rt); Release])
| try_saved t host port u p rt :
    (2 <= fields proxy)%nat ->
    net w k = Status 200 rt -> disk w k = None ->
    aio_proxy_type proxy_type = Ok t ->
    try_shape cfg w proxy proxy_type k st
      (Ok Returned, good_plus_one st,
       [Acquire; Get t host port u p; Print (Success proxy rt);
        Write (proxy +:+ newline); Release])
| try_not_saved t host port u p rt err :
    (2 <= fields proxy)%nat ->
    net w k = Status 200 rt -> disk w k = Some err ->
    aio_proxy_type proxy_type = Ok t ->
    try_shape cfg w proxy proxy_type k st
      (Ok Returned, good_plus_one st,
       [Acquire; Get t host port u p; Print (Success proxy rt);
        Print (ErrorSavingProxy err); Release])
| try_no_request e :
    (fields proxy < 2)%nat
    \/ aio_proxy_type proxy_type = Raise (ValueError "Invalid proxy type") ->
    try_shape cfg w proxy proxy_type k st
      (Ok Retry, st,
       [Acquire; Release; Print (failure_report cfg proxy e);
        Sleep (retry_delay cfg)])
| try_request_failed t host port u p e :
    (2 <= fields proxy)%nat ->
    net w k = Fails e ->
    aio_proxy_type proxy_type = Ok t ->
    try_shape cfg w proxy proxy_type k st
      (Ok Retry, st,
       [Acquire; Get t host port u p; Release;
        Print (failure_report cfg proxy e); Sleep (retry_delay cfg)]).

(** One pass of the loop: a pass of the [try] statement, then the
    [finally] clause, which counts the pass and either shows the title
    or raises from the throughput computation. *)
Inductive iteration_shape (cfg : settings) (w : world)
    (proxy proxy_type : string) (k : Z) (st : stats)
  : result flow * stats * list event -> Prop :=
| pass_counted r st1 tr1 rate :
    try_shape cfg w proxy proxy_type k st (r, st1, tr1) ->
    proxies_per_minute (total_proxies_checked st1 + 1)
                       (perf_counter w k) (start_time cfg) = Ok rate ->
    iteration_shape cfg w proxy proxy_type k st
      (r, Stats (total_proxies_checked st1 + 1) (good_proxies st1) rate,
       tr1 ++ [Title (total_proxies_checked st1 + 1) (good_proxies st1) rate])
| pass_raised r st1 tr1 e :
    try_shape cfg w proxy proxy_type k st (r, st1, tr1) ->
    proxies_per_minute (total_proxies_checked st1 + 1)
                       (perf_counter w k) (start_time cfg) = Raise e ->
    iteration_shape cfg w proxy proxy_type k st
      (Raise e,
       Stats (total_proxies_checked st1 + 1) (good_proxies st1)
             (proxies_checked_per_minute st1),
       tr1).

(** ** The parts of a run *)

Definition outcome_of {A : Type} (x : result A * stats * list event) : result A :=
  fst (fst x).

Definition stats_of {A : Type} (x : result A * stats * list event) : stats :=
  snd (fst x).

Definition trace_of {A : Type} (x : result A * stats * list event) : list event :=
  snd x.

(** The minutes since the checker was created, as line 178 computes
    them. *)
Definition elapsed_minutes (now start : PyFloat.float) : PyFloat.float :=
  SFdiv PyFloat.prec PyFloat.emax (PyFloat.sub now start) PyFloat.sixty.

(** ** Sample environments *)

(** [float(n)] for a small [n]. *)
Definition seconds (n : Z) : PyFloat.float :=
  binary_normalize PyFloat.prec PyFloat.emax n 0 false.

(** A clock that started at 0 and shows 5 more seconds at the end of
    each attempt. *)
Definition ticking_clock (k : Z) : PyFloat.float := seconds (5 * (k + 1)).

(** A clock that still shows the start time. *)
Definition frozen_clock (_ : Z) : PyFloat.float := seconds 0.

(** Every request times out. *)
Definition world_timeouts : world :=
  World (fun _ => Fails TimeoutError) (fun _ => None) ticking_clock.

(** Every request is answered with the given status after one second. *)
Definition world_status (status : Z) : world :=
  World (fun _ => Status status 1) (fun _ => None) ticking_clock.

(** The first request times out, the second is answered with 200. *)
Definition world_second_try : world :=
  World (fun k => if k =? 0 then Fails TimeoutError else Status 200 1)
        (fun _ => None) ticking_clock.

(** The request succeeds before the clock has moved. *)
Definition world_frozen : world :=
  World (fun _ => Status 200 0) (fun _ => None) frozen_clock.

(** The checker as [__main__] builds it, started at time 0. *)
Definition default_checker : settings := default_settings (seconds 0).

(** ** More to read in a trace *)

Definition is_success (e : event) : bool :=
  match e with Print (Success _ _) => true | _ => false end.

(** The reports of line 154. *)
Definition successes (tr : list event) : nat := length (List.filter is_success tr).

(** The seconds spent in [asyncio.sleep]. *)
Fixpoint slept (tr : list event) : Z :=
  match tr with
  | [] => 0
  | Sleep seconds :: rest => seconds + slept rest
  | _ :: rest => slept rest
  end.

(** What each request was given: the connector type, the host, the
    port and the credentials (lines 137-141). *)
Fixpoint requests (tr : list event)
  : list (ProxyType * string * string * option string * option string) :=
  match tr with
  | [] => []
  | Get t host port username password :: rest =>
      (t, host, port, username, password) :: requests rest
  | _ :: rest => requests rest
  end.

(** The protocol names of lines 128-133. *)
Definition known_protocols : list string := ["HTTP"; "HTTPS"; "SOCKS4"; "SOCKS5"].

(** ** [main] *)


(** Every request is answered with 200 and the output file cannot be
    written. *)
Definition world_disk_full : world :=
  World (fun _ => Status 200 1) (fun _ => Some "No space left on device")
        ticking_clock.

(** A float that is not below zero: a zero of either sign, a positive
    number, plus infinity or a NaN. *)
Definition not_negative (x : PyFloat.float) : bool :=
  match x with
  | S754_finite true _ _ | S754_infinity true => false
  | _ => true
  end.

(** ** [read_proxy_file] with every way to fail *)

(** What opening the file and iterating over it can do (lines 81-82):
    the path does not exist; [open] raises something else (a
    [PermissionError] or an [IsADirectoryError], a [ValueError] for a
    path with a NUL character); or the file opens and the iteration
    yields [lines] and then either ends or raises [broken] (a
    [UnicodeDecodeError], which is a [ValueError], for bytes that are
    not UTF-8). *)
Inductive opening : Type :=
| Missing
| Unopenable (e : exn)
| Readable (lines : list string) (broken : option exn).

(** The exception that opening or reading raises, if any. *)
Definition raised (x : opening) : option exn :=
  match x with
  | Missing => Some (FileNotFoundError "No such file or directory")
  | Unopenable e => Some e
  | Readable _ broken => broken
  end.

(** The body of the [try] statement, lines 81-91, on such a file.  An
    exception of the iteration leaves the loop before line 88, whatever
    was appended to [proxies]. *)
Definition read_proxy_file_try_at (x : opening) : result (list string) :=
  match x with
  | Missing => Raise (FileNotFoundError "No such file or directory")
  | Unopenable e => Raise e
  | Readable lines (Some e) => Raise e
  | Readable lines None =>
      let proxies := read_lines lines [] in
      match proxies with
      | [] => Raise (ValueError "The file does not contain any valid proxies.")
      | _ => Ok (list_of_set proxies)
      end
  end.

(** [read_proxy_file], lines 64-96, on such a file: [except
    FileNotFoundError] and [except ValueError] re-raise with a message of
    their own, every other exception passes through. *)
Definition read_proxy_file_at (x : opening) (filepath : string)
  : result (list string) :=
  match read_proxy_file_try_at x with
  | Ok proxies => Ok proxies
  | Raise (FileNotFoundError _) =>
      Raise (FileNotFoundError ("The file " +:+ filepath +:+ " does not exist."))
  | Raise (ValueError e) =>
      Raise (ValueError ("An error occurred while reading the proxy file: " +:+ e))
  | Raise e => Raise e
  end.

(** A path of a [filesystem] as an [opening]: it is missing, or it opens
    and is read to its end. *)
Definition opening_of (fs : filesystem) (filepath : string) : opening :=
  match fs filepath with
  | None => Missing
  | Some lines => Readable lines None
  end.

(** ** Coroutines that share the counters *)

(** [asyncio.gather] (line 205) runs the coroutines of [main] on the
    counters of the one [self] and with the one semaphore, and the event
    loop can switch from one to another where it awaits.  Lines 120-160
    are what [async with semaphore] guards: [try_body] is this between
    [Acquire] and [Release].  Its awaits (lines 146 and 156) come before
    its one write to the counters, line 157. *)
Definition guarded_body (w : world) (proxy proxy_type : string)
    (retry_count : Z) : M flow :=
  let proxy_split := PyStr.split colon proxy in
  host <- lift (getitem proxy_split 0) ;;
  port <- lift (getitem proxy_split 1) ;;
  username <- (if negb (length proxy_split =? 4)%nat then ret None
               else u <- lift (getitem proxy_split 2) ;; ret (Some u)) ;;
  password <- (if negb (length proxy_split =? 4)%nat then ret None
               else p <- lift (getitem proxy_split 3) ;; ret (Some p)) ;;
  t <- lift (aio_proxy_type proxy_type) ;;
  resp <- request w retry_count t host port username password ;;
  (if fst resp =? 200 then
     emit (Print (Success proxy (snd resp))) ;;
     save_proxy w retry_count proxy ;;
     st <- get_stats ;;
     put_stats (Stats (total_proxies_checked st) (good_proxies st + 1)
                      (proxies_checked_per_minute st))
   else
     emit (Print (FailureStatus proxy (snd resp)))) ;;
  ret Returned.

(** Where a coroutine of [check_proxy] waits for the event loop:
    - at line 117, before a pass;
    - at the end of the guarded lines with their outcome [r]: in the
      [return] of line 161, which awaits the exits of the response and of
      the session, or with an exception on its way out of them; the
      permit is still held;
    - in the [asyncio.sleep] of a handler, whose outcome is [r]; the
      [finally] clause comes next;
    - nowhere: the call has returned or raised. *)
Inductive position : Type :=
| AtWhile (retry_count : Z)
| AtExit (retry_count : Z) (r : result flow)
| Sleeping (retry_count : Z) (r : result flow)
| Finished (r : result unit).

(** A coroutine: the arguments of the call, what its requests will meet,
    and where it stands. *)
Record coroutine : Type := Coroutine {
  co_world : world;
  co_proxy : string;
  co_proxy_type : string;
  co_at : position
}.

(** From the outcome [r] of the guarded lines to the end of the [try]
    statement: the permit is given back, and a handler runs if [r] is an
    exception. *)
Definition leave (cfg : settings) (proxy : string) (r : result flow) : M flow :=
  try_except (try_finally (lift r) (emit Release)) (handler cfg proxy).

(** After the [finally] clause of a pass: the [return] of line 161 ends
    the call, a handler leads to the next pass, an exception leaves the
    call. *)
Definition next_position (retry_count : Z) (r : result flow) : position :=
  match r with
  | Ok Returned => Finished (Ok tt)
  | Ok Retry => AtWhile (retry_count + 1)
  | Raise e => Finished (Raise e)
  end.

(** The rest [m] of the [try] statement and the [finally] clause, which
    do not await. *)
Definition finish (cfg : settings) (w : world) (retry_count : Z) (m : M flow)
    (st : stats) : position * stats * list event :=
  match try_finally m (finally_block cfg w retry_count) st with
  | (r, st1, tr1) => (next_position retry_count r, st1, tr1)
  end.

(** The event loop resumes a coroutine, which runs on the shared counters
    until it awaits again.  [free] tells whether the semaphore has a
    permit left: without one a coroutine at line 119 stays where it is.
    After the last exit of line 161 (the semaphore's, which does not
    suspend) the [finally] clause follows at once. *)
Definition resume (cfg : settings) (free : bool) (c : coroutine) (st : stats)
  : coroutine * stats * list event :=
  let moved := Coroutine (co_world c) (co_proxy c) (co_proxy_type c) in
  match co_at c with
  | AtWhile retry_count =>
      if retry_count <=? max_retry cfg then
        if free then
          match (emit Acquire ;;
                 guarded_body (co_world c) (co_proxy c) (co_proxy_type c)
                              retry_count) st with
          | (r, st1, tr1) => (moved (AtExit retry_count r), st1, tr1)
          end
        else (c, st, [])
      else (moved (Finished (Ok tt)), st, [Print (ExceededRetries (co_proxy c))])
  | AtExit retry_count (Ok f) =>
      match finish cfg (co_world c) retry_count
                   (leave cfg (co_proxy c) (Ok f)) st with
      | (p, st1, tr1) => (moved p, st1, tr1)
      end
  | AtExit retry_count (Raise e) =>
      match leave cfg (co_proxy c) (Raise e) st with
      | (r, st1, tr1) => (moved (Sleeping retry_count r), st1, tr1)
      end
  | Sleeping retry_count r =>
      match finish cfg (co_world c) retry_count (lift r) st with
      | (p, st1, tr1) => (moved p, st1, tr1)
      end
  | Finished _ => (c, st, [])
  end.

(** The permits of the semaphore that are taken: a coroutine holds one
    from line 119 to the last exit of line 161. *)
Fixpoint held (pool : list coroutine) : Z :=
  match pool with
  | [] => 0
  | c :: rest =>
      match co_at c with
      | AtExit _ _ => held rest + 1
      | _ => held rest
      end
  end.

(** The coroutines that are in the [return] of line 161: their guarded
    lines have ended without an exception, their [finally] clause has
    not run yet. *)
Fixpoint returning (pool : list coroutine) : Z :=
  match pool with
  | [] => 0
  | c :: rest =>
      match co_at c with
      | AtExit _ (Ok _) => returning rest + 1
      | _ => returning rest
      end
  end.

(** The event loop: [schedule] lists the coroutines in the order they
    are resumed, by their place in the pool; the semaphore was made with
    [max_concurrent_tasks] permits (line 202). *)
Fixpoint event_loop (cfg : settings) (max_concurrent_tasks : Z)
    (schedule : list nat) (pool : list coroutine) (st : stats)
  : list coroutine * stats * list event :=
  match schedule with
  | [] => (pool, st, [])
  | i :: rest =>
      match pool !! i with
      | None => event_loop cfg max_concurrent_tasks rest pool st
      | Some c =>
          match resume cfg (held pool <? max_concurrent_tasks) c st with
          | (c1, st1, tr1) =>
              match event_loop cfg max_concurrent_tasks rest (<[i := c1]> pool) st1 with
              | (pool2, st2, tr2) => (pool2, st2, tr1 ++ tr2)
              end
          end
      end
  end.

(** The coroutines as line 203 creates them, each with what its requests
    will meet. *)
Definition tasks (proxy_type : string) (proxies : list (world * string))
  : list coroutine :=
  List.map (fun job => Coroutine (fst job) (snd job) proxy_type (AtWhile 0))
           proxies.

(** Two proxies that answer with 200. *)
Definition two_good_proxies : list coroutine :=
  tasks "HTTP" [(world_status 200, "1.2.3.4:8080");
                (world_status 200, "5.6.7.8:1080")].

(** The first request times out, the second is answered with 404. *)
Definition world_timeout_then_404 : world :=
  World (fun k => if k =? 0 then Fails TimeoutError else Status 404 1)
        (fun _ => None) ticking_clock.

(** * Properties *)

(** ** Strings *)

Module PyStrFacts.
Import PyStr.

Lemma split_length sep s : length (split sep s) = S (count sep s).
Proof.
  induction s as [|c rest IH]; simpl; [reflexivity|].
  destruct (Ascii.eqb c sep); simpl.
  - now rewrite IH.
  - destruct (split sep rest); simpl in *; congruence.
Qed.

Lemma contains_count sep s : contains sep s = negb (count sep s =? 0)%nat.
Proof.
  induction s as [|c rest IH]; simpl; [reflexivity|].
  destruct (Ascii.eqb c sep); simpl; [reflexivity|exact IH].
Qed.

(** A string with at least two fields contains the separator: the
    [in] test of line 84 never decides alone. *)
Lemma contains_of_fields sep s :
  (2 <= length (split sep s))%nat -> contains sep s = true.
Proof.
  rewrite split_length, contains_count.
  destruct (count sep s); simpl; [lia|reflexivity].
Qed.

Lemma contains_not_empty sep s : contains sep s = true -> is_empty s = false.
Proof. destruct s; simpl; [discriminate|reflexivity]. Qed.

(** What remains of [rstrip] does not end in whitespace, so stripping
    it again changes nothing. *)
Lemma rstrip_idem s : rstrip (rstrip s) = rstrip s.
Proof.
  induction s as [|c rest IH]; simpl; [reflexivity|].
  destruct (rstrip rest) as [|d kept] eqn:E.
  - destruct (is_space c) eqn:Ec; simpl; [reflexivity|now rewrite Ec].
  - simpl. simpl in IH. now rewrite IH.
Qed.

Lemma rstrip_app_space s c :
  is_space c = true -> rstrip (s +:+ String c EmptyString) = rstrip s.
Proof.
  intros Hc. induction s as [|d rest IH]; simpl.
  - now rewrite Hc.
  - now rewrite IH.
Qed.

(** Stripping on the left leaves nothing or a string that starts with a
    character that is not whitespace. *)
Lemma lstrip_head s :
  match lstrip s with
  | EmptyString => True
  | String c _ => is_space c = false
  end.
Proof.
  induction s as [|c rest IH]; simpl; [exact I|].
  destruct (is_space c) eqn:Ec; [exact IH|exact Ec].
Qed.

Lemma rstrip_head s c rest :
  rstrip s = String c rest -> exists rest', s = String c rest'.
Proof.
  destruct s as [|d s']; simpl; [discriminate|].
  destruct (rstrip s'); [destruct (is_space d)|]; intros H; inversion H; eauto.
Qed.

Lemma lstrip_fixed c rest : is_space c = false -> lstrip (String c rest) = String c rest.
Proof. intros H. simpl. now rewrite H. Qed.

(** Writing a stripped line with a newline after it and stripping what
    was written gives the line back. *)
Lemma strip_line_newline raw :
  strip (strip raw +:+ newline) = strip raw.
Proof.
  unfold strip at 1.
  destruct (strip raw) as [|c rest] eqn:E; [reflexivity|].
  assert (Hc : is_space c = false).
  { unfold strip in E. apply rstrip_head in E as [rest' E].
    pose proof (lstrip_head raw) as H. now rewrite E in H. }
  change (String c rest +:+ newline) with (String c (rest +:+ newline)).
  rewrite lstrip_fixed by exact Hc.
  change (String c (rest +:+ newline)) with (String c rest +:+ newline).
  unfold newline. rewrite rstrip_app_space by reflexivity.
  rewrite <- E. unfold strip. apply rstrip_idem.
Qed.

End PyStrFacts.

(** ** [read_proxy_file] *)

Lemma valid_proxy_fields line :
  valid_proxy line = (fields line =? 2)%nat || (fields line =? 4)%nat.
Proof.
  unfold valid_proxy, fields.
  destruct (PyStr.contains colon line) eqn:E; [reflexivity|].
  symmetry. apply orb_false_iff.
  split; apply Nat.eqb_neq; intros H;
    rewrite PyStrFacts.contains_of_fields in E by lia; discriminate.
Qed.

Lemma valid_proxy_iff line :
  valid_proxy line = true <-> fields line = 2%nat \/ fields line = 4%nat.
Proof.
  rewrite valid_proxy_fields, orb_true_iff, !Nat.eqb_eq. reflexivity.
Qed.

(** The loop keeps, in order, the stripped lines that pass the test. *)
Lemma read_lines_filter lines proxies :
  read_lines lines proxies
  = proxies ++ List.filter valid_proxy (List.map PyStr.strip lines).
Proof.
  revert proxies.
  induction lines as [|line rest IH]; intros proxies; simpl.
  - now rewrite app_nil_r.
  - unfold valid_proxy.
    destruct (PyStr.contains colon (PyStr.strip line)); [|apply IH].
    destruct ((length (PyStr.split colon (PyStr.strip line)) =? 2)%nat
              || (length (PyStr.split colon (PyStr.strip line)) =? 4)%nat).
    + rewrite IH, <- app_assoc. reflexivity.
    + apply IH.
Qed.

Lemma elem_of_read_lines lines p :
  p ∈ read_lines lines []
  <-> exists raw, raw ∈ lines /\ p = PyStr.strip raw
                  /\ (fields p = 2%nat \/ fields p = 4%nat).
Proof.
  rewrite read_lines_filter. simpl.
  rewrite list_elem_of_In, filter_In, in_map_iff, valid_proxy_iff.
  split.
  - intros [[raw [<- Hin]] Hf]. exists raw.
    rewrite list_elem_of_In. auto.
  - intros [raw [Hin [-> Hf]]]. rewrite list_elem_of_In in Hin. eauto.
Qed.

Lemma valid_proxy_non_blank raw :
  valid_proxy (PyStr.strip raw) = true -> non_blank raw = true.
Proof.
  unfold valid_proxy, non_blank.
  destruct (PyStr.contains colon (PyStr.strip raw)) eqn:E; [|discriminate].
  intros _. now rewrite (PyStrFacts.contains_not_empty _ _ E).
Qed.

Lemma read_lines_length lines :
  (length (read_lines lines []) <= length (List.filter non_blank lines))%nat.
Proof.
  rewrite read_lines_filter. simpl.
  induction lines as [|raw rest IH]; simpl; [lia|].
  destruct (valid_proxy (PyStr.strip raw)) eqn:E.
  - rewrite (valid_proxy_non_blank _ E). simpl. lia.
  - destruct (non_blank raw); simpl; lia.
Qed.

Lemma elem_of_list_of_set proxies p : p ∈ list_of_set proxies <-> p ∈ proxies.
Proof.
  unfold list_of_set. rewrite elem_of_elements, elem_of_list_to_set. reflexivity.
Qed.

Lemma NoDup_list_of_set proxies : NoDup (list_of_set proxies).
Proof. unfold list_of_set. apply NoDup_elements. Qed.

Lemma list_of_set_length proxies :
  (length (list_of_set proxies) <= length proxies)%nat.
Proof.
  apply submseteq_length, NoDup_submseteq.
  - apply NoDup_list_of_set.
  - intros x. apply elem_of_list_of_set.
Qed.

Lemma list_of_set_not_nil proxies : proxies <> [] -> list_of_set proxies <> [].
Proof.
  destruct proxies as [|p rest]; [congruence|]. intros _ H.
  assert (Hp : p ∈ list_of_set (p :: rest)).
  { apply elem_of_list_of_set. left. }
  rewrite H in Hp. inversion Hp.
Qed.

(** What [read_proxy_file] returns on a path, case by case. *)
Lemma read_proxy_file_cases fs filepath :
  match fs filepath with
  | None =>
      read_proxy_file fs filepath
      = Raise (FileNotFoundError ("The file " +:+ filepath +:+ " does not exist."))
  | Some lines =>
      match read_lines lines [] with
      | [] =>
          read_proxy_file fs filepath
          = Raise (ValueError ("An error occurred while reading the proxy file: "
                               +:+ "The file does not contain any valid proxies."))
      | p :: rest =>
          read_proxy_file fs filepath = Ok (list_of_set (p :: rest))
      end
  end.
Proof.
  unfold read_proxy_file, read_proxy_file_try.
  destruct (fs filepath) as [lines|]; [|reflexivity].
  destruct (read_lines lines []); reflexivity.
Qed.

Lemma read_lines_nil_iff lines :
  read_lines lines [] = []
  <-> forall raw, raw ∈ lines ->
        fields (PyStr.strip raw) <> 2%nat /\ fields (PyStr.strip raw) <> 4%nat.
Proof.
  split.
  - intros E raw Hin.
    assert (Hp : ~ PyStr.strip raw ∈ read_lines lines []).
    { rewrite E. apply not_elem_of_nil. }
    rewrite elem_of_read_lines in Hp.
    split; intros Hf; apply Hp; exists raw; auto.
  - intros H. destruct (read_lines lines []) as [|p rest] eqn:E; [reflexivity|].
    assert (Hp : p ∈ read_lines lines []) by (rewrite E; left).
    apply elem_of_read_lines in Hp as [raw [Hin [-> Hf]]].
    destruct (H raw Hin) as [H2 H4]. destruct Hf; contradiction.
Qed.

(** The proxies returned are the stripped lines with 2 or 4 fields. *)
Lemma read_proxy_file_valid_lines fs filepath lines :
  fs filepath = Some lines ->
  forall proxies, read_proxy_file fs filepath = Ok proxies ->
  forall p, p ∈ proxies
            <-> exists raw, raw ∈ lines /\ p = PyStr.strip raw
                            /\ (fields p = 2%nat \/ fields p = 4%nat).
Proof.
  intros Hfs proxies Hread p.
  pose proof (read_proxy_file_cases fs filepath) as Hc. rewrite Hfs in Hc.
  destruct (read_lines lines []) as [|p0 rest] eqn:E; [congruence|].
  rewrite Hc in Hread. injection Hread as <-. rewrite <- E.
  rewrite elem_of_list_of_set. apply elem_of_read_lines.
Qed.

(** C5. [read_proxy_file] returns exactly the stripped lines that split
    on [":"] into 2 or 4 fields, each of them once: the list has no
    duplicate, it is no longer than the number of non-blank input lines,
    and on the example input it has 2 elements. *)
Theorem read_proxy_file_valid_unique fs filepath lines :
  fs filepath = Some lines ->
  (forall proxies, read_proxy_file fs filepath = Ok proxies ->
     (forall p, p ∈ proxies
                <-> exists raw, raw ∈ lines /\ p = PyStr.strip raw
                                /\ (fields p = 2%nat \/ fields p = 4%nat))
     /\ NoDup proxies
     /\ (length proxies <= length (List.filter non_blank lines))%nat)
  /\ (lines = example_lines ->
      exists proxies, read_proxy_file fs filepath = Ok proxies
                      /\ length proxies = 2%nat).
Proof.
  intros Hfs. pose proof (read_proxy_file_cases fs filepath) as Hc.
  rewrite Hfs in Hc. split.
  - intros proxies Hread.
    destruct (read_lines lines []) as [|p0 rest] eqn:E; [congruence|].
    rewrite Hc in Hread. injection Hread as <-. rewrite <- E.
    split; [|split].
    + intros p. rewrite elem_of_list_of_set. apply elem_of_read_lines.
    + apply NoDup_list_of_set.
    + etransitivity; [apply list_of_set_length|apply read_lines_length].
  - intros ->. eexists. split; [exact Hc|]. vm_compute. reflexivity.
Qed.

Lemma read_proxy_file_valid_unique_witness :
  exists proxies,
    read_proxy_file (fun _ => Some example_lines) "proxies.txt" = Ok proxies
    /\ length proxies = 2%nat /\ NoDup proxies.
Proof.
  destruct (read_proxy_file_valid_unique
              (fun _ => Some example_lines) "proxies.txt" example_lines eq_refl)
    as [Hall Hex].
  destruct (Hex eq_refl) as [proxies [Hread Hlen]].
  exists proxies. split; [exact Hread|]. split; [exact Hlen|].
  exact (proj1 (proj2 (Hall proxies Hread))).
Defined.


(** ** Counting in a trace *)

Lemma attempts_app tr1 tr2 : attempts (tr1 ++ tr2) = (attempts tr1 + attempts tr2)%nat.
Proof. unfold attempts. now rewrite List.filter_app, length_app. Qed.

Lemma probes_app tr1 tr2 : probes (tr1 ++ tr2) = (probes tr1 + probes tr2)%nat.
Proof. unfold probes. now rewrite List.filter_app, length_app. Qed.

Lemma sleeps_app tr1 tr2 : sleeps (tr1 ++ tr2) = (sleeps tr1 + sleeps tr2)%nat.
Proof. unfold sleeps. now rewrite List.filter_app, length_app. Qed.

Lemma give_ups_app tr1 tr2 : give_ups (tr1 ++ tr2) = (give_ups tr1 + give_ups tr2)%nat.
Proof. unfold give_ups. now rewrite List.filter_app, length_app. Qed.

Lemma written_app tr1 tr2 : written (tr1 ++ tr2) = written tr1 ++ written tr2.
Proof.
  induction tr1 as [|e tr1 IH]; simpl; [reflexivity|].
  destruct e; simpl; now rewrite ?IH.
Qed.

Lemma titles_app tr1 tr2 : titles (tr1 ++ tr2) = titles tr1 ++ titles tr2.
Proof.
  induction tr1 as [|e tr1 IH]; simpl; [reflexivity|].
  destruct e; simpl; now rewrite ?IH.
Qed.

Lemma permits_app held tr1 tr2 :
  permits held (tr1 ++ tr2) = permits (permits held tr1) tr2.
Proof.
  revert held. induction tr1 as [|e tr1 IH]; intros held; simpl; [reflexivity|].
  destruct e; apply IH.
Qed.

Lemma permits_at_sleeps_app held tr1 tr2 :
  permits_at_sleeps held (tr1 ++ tr2)
  = permits_at_sleeps held tr1 ++ permits_at_sleeps (permits held tr1) tr2.
Proof.
  revert held. induction tr1 as [|e tr1 IH]; intros held; simpl; [reflexivity|].
  destruct e; simpl; now rewrite IH.
Qed.

Lemma permits_at_requests_app held tr1 tr2 :
  permits_at_requests held (tr1 ++ tr2)
  = permits_at_requests held tr1 ++ permits_at_requests (permits held tr1) tr2.
Proof.
  revert held. induction tr1 as [|e tr1 IH]; intros held; simpl; [reflexivity|].
  destruct e; simpl; now rewrite IH.
Qed.

Create Rewrite HintDb trace.
#[local] Hint Rewrite attempts_app probes_app sleeps_app give_ups_app
  written_app titles_app permits_app permits_at_sleeps_app
  permits_at_requests_app : trace.

Lemma after_parts {A : Type} tr (x : result A * stats * list event) :
  outcome_of (after tr x) = outcome_of x
  /\ stats_of (after tr x) = stats_of x
  /\ trace_of (after tr x) = tr ++ trace_of x.
Proof. destruct x as [[r st] tr']. repeat split. Qed.

(** ** The throughput *)

Lemma proxies_per_minute_eq total now start :
  proxies_per_minute total now start
  = bind_result (PyFloat.of_int total) (fun total_f =>
    bind_result (PyFloat.truediv total_f (elapsed_minutes now start))
                PyFloat.round).
Proof. reflexivity. Qed.

Lemma elapsed_minutes_zero now start :
  PyFloat.is_zero (PyFloat.sub now start) = true ->
  PyFloat.is_zero (elapsed_minutes now start) = true.
Proof.
  unfold elapsed_minutes.
  destruct (PyFloat.sub now start); simpl; try discriminate. reflexivity.
Qed.

(** ** One call of [check_proxy] *)

Lemma aio_proxy_type_raises proxy_type e :
  aio_proxy_type proxy_type = Raise e -> e = ValueError "Invalid proxy type".
Proof.
  unfold aio_proxy_type.
  repeat match goal with |- (if ?b then _ else _) = _ -> _ => destruct b end;
    congruence.
Qed.

Section CheckProxy.

Variables (cfg : settings) (w : world) (proxy proxy_type : string).

(** *** One pass of the loop *)

Lemma handler_run e st :
  handler cfg proxy e st
  = (Ok Retry, st, [Print (failure_report cfg proxy e); Sleep (retry_delay cfg)]).
Proof. destruct e; reflexivity. Qed.

Lemma failure_report_not_give_up e :
  is_give_up (Print (failure_report cfg proxy e)) = false.
Proof. destruct e; reflexivity. Qed.

(** The [try] statement takes one of the five shapes. *)
Lemma try_cases k st :
  try_shape cfg w proxy proxy_type k st
    (try_except (try_body w proxy proxy_type k) (handler cfg proxy) st).
Proof.
  unfold try_except, try_body, with_semaphore, try_finally, request, save_proxy.
  destruct (PyStr.split colon proxy) as [|host [|port rest]] eqn:Esplit.
  - cbn -[handler]. rewrite handler_run.
    apply try_no_request. left. unfold fields. rewrite Esplit. simpl. lia.
  - cbn -[handler]. rewrite handler_run.
    apply try_no_request. left. unfold fields. rewrite Esplit. simpl. lia.
  - assert (Hf : (2 <= fields proxy)%nat).
    { unfold fields. rewrite Esplit. simpl. lia. }
    destruct (aio_proxy_type proxy_type) as [t|e] eqn:Et.
    + destruct (net w k) as [status rt|e] eqn:Enet.
      * destruct (status =? 200) eqn:E200.
        -- apply Z.eqb_eq in E200. subst status.
           destruct (disk w k) as [err|] eqn:Edisk;
             destruct rest as [|u [|p [|x rest]]];
             cbn -[handler]; rewrite ?Et; cbn -[handler];
             rewrite ?Enet; cbn -[handler]; rewrite ?Edisk; cbn -[handler];
             (eapply try_not_saved || eapply try_saved); eauto.
        -- apply Z.eqb_neq in E200.
           destruct rest as [|u [|p [|x rest]]];
             cbn -[handler]; rewrite ?Et; cbn -[handler];
             rewrite ?Enet; cbn -[handler];
             (destruct (status =? 200) eqn:E;
              [apply Z.eqb_eq in E; contradiction|]); cbn -[handler];
             eapply try_refused; eauto.
      * destruct rest as [|u [|p [|x rest]]];
          cbn -[handler]; rewrite ?Et; cbn -[handler];
          rewrite ?Enet; cbn -[handler]; rewrite handler_run;
          eapply try_request_failed; eauto.
    + apply aio_proxy_type_raises in Et as He. subst e.
      destruct rest as [|u [|p [|x rest]]];
        cbn -[handler]; rewrite ?Et; cbn -[handler]; rewrite handler_run;
        eapply try_no_request; eauto.
Qed.

(** The [finally] clause adds one to the total, then shows the title or
    raises. *)
Lemma finally_block_run k st :
  finally_block cfg w k st
  = match proxies_per_minute (total_proxies_checked st + 1)
                             (perf_counter w k) (start_time cfg) with
    | Ok rate =>
        (Ok tt, Stats (total_proxies_checked st + 1) (good_proxies st) rate,
         [Title (total_proxies_checked st + 1) (good_proxies st) rate])
    | Raise e =>
        (Raise e,
         Stats (total_proxies_checked st + 1) (good_proxies st)
               (proxies_checked_per_minute st),
         [])
    end.
Proof.
  unfold finally_block, bind, get_stats, put_stats, lift, emit.
  destruct (proxies_per_minute (total_proxies_checked st + 1)
                               (perf_counter w k) (start_time cfg));
    reflexivity.
Qed.

Lemma iteration_cases k st :
  iteration_shape cfg w proxy proxy_type k st
    (iteration cfg w proxy proxy_type k st).
Proof.
  unfold iteration, try_finally.
  pose proof (try_cases k st) as Htry.
  destruct (try_except _ _ st) as [[r st1] tr1].
  rewrite finally_block_run.
  destruct (proxies_per_minute _ _ _) as [rate|e] eqn:Erate.
  - apply pass_counted; assumption.
  - rewrite app_nil_r. eapply pass_raised; eassumption.
Qed.

(** Splits a pass, given by [Hi : iteration ... = (r, st1, tr1)], into
    the shapes it can have. *)
Ltac pass_shapes Hi :=
  match type of Hi with
  | iteration _ _ _ _ ?k ?st = _ =>
      let Hs := fresh "Hs" in
      pose proof (iteration_cases k st) as Hs;
      rewrite Hi in Hs;
      inversion Hs; subst; clear Hs;
      match goal with
      | Ht : try_shape _ _ _ _ _ _ _ |- _ => inversion Ht; subst; clear Ht
      end
  end.

(** Settles the side conditions that contradict the cause of a pass. *)
Ltac wrong_shape :=
  simpl in *;
  try (match goal with H : _ \/ _ |- _ => destruct H; [lia|congruence] end);
  try congruence.

(** A pass counts itself once, whatever its outcome. *)
Lemma iteration_total k st r st1 tr1 :
  iteration cfg w proxy proxy_type k st = (r, st1, tr1) ->
  total_proxies_checked st1 = total_proxies_checked st + 1
  /\ attempts tr1 = 1%nat.
Proof. intros Hi. pass_shapes Hi; simpl; auto. Qed.

(** A pass that goes on to a retry leaves [good_proxies] and the output
    file alone; any pass adds at most one to [good_proxies]. *)
Lemma iteration_good k st r st1 tr1 :
  iteration cfg w proxy proxy_type k st = (r, st1, tr1) ->
  (good_proxies st1 = good_proxies st \/ good_proxies st1 = good_proxies st + 1)
  /\ (r = Ok Retry -> good_proxies st1 = good_proxies st /\ written tr1 = []).
Proof.
  intros Hi. pass_shapes Hi; simpl; split; auto; try discriminate.
Qed.

(** Within a pass the permit is held for the request and given back
    before any sleep; no pass ends with the permit held. *)
Lemma iteration_permits k st r st1 tr1 :
  iteration cfg w proxy proxy_type k st = (r, st1, tr1) ->
  permits 0 tr1 = 0%nat
  /\ Forall (fun held => held = 0%nat) (permits_at_sleeps 0 tr1)
  /\ Forall (fun held => held = 1%nat) (permits_at_requests 0 tr1).
Proof.
  intros Hi. pass_shapes Hi; simpl; repeat split; repeat constructor.
Qed.

(** A pass writes nothing, or the proxy and a newline; it writes nothing
    when it goes on to a retry, and it never reports exhausted retries. *)
Lemma iteration_written k st r st1 tr1 :
  iteration cfg w proxy proxy_type k st = (r, st1, tr1) ->
  Forall (fun text => text = proxy +:+ newline) (written tr1)
  /\ (r = Ok Retry -> written tr1 = [])
  /\ give_ups tr1 = 0%nat.
Proof.
  intros Hi. pass_shapes Hi; simpl;
    repeat split; repeat constructor; try discriminate;
    unfold give_ups; simpl;
    try match goal with
        | |- context [failure_report ?c ?p ?e] => destruct e
        end;
    reflexivity.
Qed.

(** A pass keeps [good_proxies] at or below [total_proxies_checked], and
    so does the title it shows. *)
Lemma iteration_invariant k st r st1 tr1 :
  good_proxies st <= total_proxies_checked st ->
  iteration cfg w proxy proxy_type k st = (r, st1, tr1) ->
  good_proxies st1 <= total_proxies_checked st1
  /\ Forall (fun shown => snd shown <= fst shown) (titles tr1).
Proof.
  intros Hinv Hi.
  pass_shapes Hi; simpl; split; repeat constructor; simpl; lia.
Qed.

(** *** Passes with a known cause *)

(** A request that raises leads to a retry: the permit is given back,
    the failure printed, the delay slept and the pass counted. *)
Lemma iteration_request_fails k st t e rate :
  (2 <= fields proxy)%nat ->
  aio_proxy_type proxy_type = Ok t ->
  net w k = Fails e ->
  proxies_per_minute (total_proxies_checked st + 1)
                     (perf_counter w k) (start_time cfg) = Ok rate ->
  exists host port u p,
    iteration cfg w proxy proxy_type k st
    = (Ok Retry,
       Stats (total_proxies_checked st + 1) (good_proxies st) rate,
       [Acquire; Get t host port u p; Release;
        Print (failure_report cfg proxy e); Sleep (retry_delay cfg);
        Title (total_proxies_checked st + 1) (good_proxies st) rate]).
Proof.
  intros Hf Ht Hnet Hrate.
  destruct (iteration cfg w proxy proxy_type k st) as [[r st1] tr1] eqn:Hi.
  pass_shapes Hi; wrong_shape.
  assert (t0 = t) by congruence. assert (rate0 = rate) by congruence.
  assert (e0 = e) by congruence.
  subst. repeat eexists.
Qed.

(** A descriptor without a port, or an unknown protocol name, leads to
    a retry as well, without any request. *)
Lemma iteration_no_request k st rate :
  (fields proxy < 2)%nat
  \/ aio_proxy_type proxy_type = Raise (ValueError "Invalid proxy type") ->
  proxies_per_minute (total_proxies_checked st + 1)
                     (perf_counter w k) (start_time cfg) = Ok rate ->
  exists e,
    iteration cfg w proxy proxy_type k st
    = (Ok Retry,
       Stats (total_proxies_checked st + 1) (good_proxies st) rate,
       [Acquire; Release; Print (failure_report cfg proxy e);
        Sleep (retry_delay cfg);
        Title (total_proxies_checked st + 1) (good_proxies st) rate]).
Proof.
  intros Hbad Hrate.
  destruct (iteration cfg w proxy proxy_type k st) as [[r st1] tr1] eqn:Hi.
  pass_shapes Hi; simpl in *;
    try (destruct Hbad; [lia|congruence]); try congruence.
  assert (rate0 = rate) by congruence. subst. eauto.
Qed.

(** A response with a status other than 200 ends the call: the failure
    is printed and line 161 returns, with nothing slept and nothing
    written. *)
Lemma iteration_bad_status k st t status rt :
  (2 <= fields proxy)%nat ->
  aio_proxy_type proxy_type = Ok t ->
  net w k = Status status rt -> status <> 200 ->
  exists host port u p r rate tr,
    iteration cfg w proxy proxy_type k st
    = (r, Stats (total_proxies_checked st + 1) (good_proxies st) rate,
       [Acquire; Get t host port u p; Print (FailureStatus proxy rt); Release]
       ++ tr)
    /\ r <> Ok Retry
    /\ (tr = [] \/ exists checked good, tr = [Title checked good rate]).
Proof.
  intros Hf Ht Hnet Hstatus.
  destruct (iteration cfg w proxy proxy_type k st) as [[r st1] tr1] eqn:Hi.
  pass_shapes Hi; wrong_shape.
  - assert (t0 = t) by congruence. assert (rt0 = rt) by congruence. subst.
    exists host, port, u, p. do 3 eexists.
    split; [reflexivity|]. split; [discriminate|]. right. eauto.
  - assert (t0 = t) by congruence. assert (rt0 = rt) by congruence. subst.
    exists host, port, u, p. eexists. eexists. exists [].
    split; [reflexivity|]. split; [discriminate|]. left. reflexivity.
Qed.

(** *** The loop *)

Lemma check_proxy_loop_eq k st :
  check_proxy_loop cfg w proxy proxy_type k st
  = if k <=? max_retry cfg then
      match iteration cfg w proxy proxy_type k st with
      | (Ok Returned, st1, tr1) => (Ok tt, st1, tr1)
      | (Ok Retry, st1, tr1) =>
          after tr1 (check_proxy_loop cfg w proxy proxy_type (k + 1) st1)
      | (Raise e, st1, tr1) => (Raise e, st1, tr1)
      end
    else (Ok tt, st, [Print (ExceededRetries proxy)]).
Proof.
  funelim (check_proxy_loop cfg w proxy proxy_type k st);
    match goal with
    | Hc : (_ <=? _) = _ |- _ => rewrite Hc
    end;
    try match goal with
    | Hi : iteration _ _ _ _ _ _ = _ |- _ => rewrite Hi
    end;
    reflexivity.
Qed.

(** Induction over the passes of the loop. *)
Lemma check_proxy_loop_passes
    (P : Z -> stats -> result unit * stats * list event -> Prop) :
  (forall k st, max_retry cfg < k ->
     P k st (Ok tt, st, [Print (ExceededRetries proxy)])) ->
  (forall k st st1 tr1, k <= max_retry cfg ->
     iteration cfg w proxy proxy_type k st = (Ok Returned, st1, tr1) ->
     P k st (Ok tt, st1, tr1)) ->
  (forall k st e st1 tr1, k <= max_retry cfg ->
     iteration cfg w proxy proxy_type k st = (Raise e, st1, tr1) ->
     P k st (Raise e, st1, tr1)) ->
  (forall k st st1 tr1 r st2 tr2, k <= max_retry cfg ->
     iteration cfg w proxy proxy_type k st = (Ok Retry, st1, tr1) ->
     check_proxy_loop cfg w proxy proxy_type (k + 1) st1 = (r, st2, tr2) ->
     P (k + 1) st1 (r, st2, tr2) ->
     P k st (r, st2, tr1 ++ tr2)) ->
  forall k st, P k st (check_proxy_loop cfg w proxy proxy_type k st).
Proof.
  intros Hexit Hret Hraise Hretry k st.
  assert (Hwf : forall n k st, Z.to_nat (max_retry cfg + 1 - k) = n ->
                  P k st (check_proxy_loop cfg w proxy proxy_type k st)).
  { clear k st. induction n as [|n IH]; intros k st Hn;
      rewrite check_proxy_loop_eq.
    - assert (Hk : (k <=? max_retry cfg) = false) by (apply Z.leb_gt; lia).
      rewrite Hk. apply Hexit. lia.
    - assert (Hk : (k <=? max_retry cfg) = true) by (apply Z.leb_le; lia).
      rewrite Hk.
      destruct (iteration cfg w proxy proxy_type k st)
        as [[[[|]|e] st1] tr1] eqn:Hi.
      + apply Hret; [lia|exact Hi].
      + specialize (IH (k + 1) st1 ltac:(lia)).
        destruct (check_proxy_loop cfg w proxy proxy_type (k + 1) st1)
          as [[r st2] tr2] eqn:Eloop.
        simpl. eapply Hretry; eauto. lia.
      + apply Hraise; [lia|exact Hi]. }
  eapply Hwf. reflexivity.
Qed.

(** The loop makes at most [max_retry + 1 - retry_count] passes. *)
Lemma check_proxy_loop_attempts k st :
  Z.of_nat (attempts (trace_of (check_proxy_loop cfg w proxy proxy_type k st)))
  <= Z.max 0 (max_retry cfg + 1 - k).
Proof.
  apply (check_proxy_loop_passes
           (fun k _ run => Z.of_nat (attempts (trace_of run))
                           <= Z.max 0 (max_retry cfg + 1 - k)));
    clear k st; unfold trace_of; simpl.
  - intros k st Hk. unfold attempts. simpl. lia.
  - intros k st st1 tr1 Hk Hi.
    apply iteration_total in Hi as [_ ->]. lia.
  - intros k st e st1 tr1 Hk Hi.
    apply iteration_total in Hi as [_ ->]. lia.
  - intros k st st1 tr1 r st2 tr2 Hk Hi _ IH.
    apply iteration_total in Hi as [_ Ha].
    autorewrite with trace. rewrite Ha. lia.
Qed.

(** Every pass adds one to [total_proxies_checked]. *)
Lemma check_proxy_loop_total k st :
  total_proxies_checked (stats_of (check_proxy_loop cfg w proxy proxy_type k st))
  = total_proxies_checked st
    + Z.of_nat (attempts (trace_of (check_proxy_loop cfg w proxy proxy_type k st))).
Proof.
  apply (check_proxy_loop_passes
           (fun _ st run => total_proxies_checked (stats_of run)
                            = total_proxies_checked st
                              + Z.of_nat (attempts (trace_of run))));
    clear k st; unfold trace_of, stats_of; simpl.
  - intros k st Hk. unfold attempts. simpl. lia.
  - intros k st st1 tr1 Hk Hi.
    apply iteration_total in Hi as [-> ->]. lia.
  - intros k st e st1 tr1 Hk Hi.
    apply iteration_total in Hi as [-> ->]. lia.
  - intros k st st1 tr1 r st2 tr2 Hk Hi _ IH.
    apply iteration_total in Hi as [Ht Ha].
    autorewrite with trace. rewrite Ha, IH, Ht. lia.
Qed.

(** [good_proxies] grows by at most one over a call. *)
Lemma check_proxy_loop_good k st :
  let run := check_proxy_loop cfg w proxy proxy_type k st in
  good_proxies (stats_of run) = good_proxies st
  \/ good_proxies (stats_of run) = good_proxies st + 1.
Proof.
  apply (check_proxy_loop_passes
           (fun _ st run =>
              good_proxies (stats_of run) = good_proxies st
              \/ good_proxies (stats_of run) = good_proxies st + 1));
    clear k st; unfold stats_of; simpl.
  - intros k st Hk. left. reflexivity.
  - intros k st st1 tr1 Hk Hi. apply iteration_good in Hi as [H _]. exact H.
  - intros k st e st1 tr1 Hk Hi. apply iteration_good in Hi as [H _]. exact H.
  - intros k st st1 tr1 r st2 tr2 Hk Hi _ IH.
    apply iteration_good in Hi as [_ H].
    destruct (H eq_refl) as [Hg _]. rewrite <- Hg. exact IH.
Qed.

(** The invariant of the counters holds throughout a call. *)
Lemma check_proxy_loop_invariant k st :
  good_proxies st <= total_proxies_checked st ->
  let run := check_proxy_loop cfg w proxy proxy_type k st in
  good_proxies (stats_of run) <= total_proxies_checked (stats_of run)
  /\ Forall (fun shown => snd shown <= fst shown) (titles (trace_of run)).
Proof.
  apply (check_proxy_loop_passes
           (fun _ st run =>
              good_proxies st <= total_proxies_checked st ->
              good_proxies (stats_of run) <= total_proxies_checked (stats_of run)
              /\ Forall (fun shown => snd shown <= fst shown)
                        (titles (trace_of run))));
    clear k st; unfold trace_of, stats_of; simpl.
  - intros k st Hk Hinv. split; [exact Hinv|constructor].
  - intros k st st1 tr1 Hk Hi Hinv. exact (iteration_invariant _ _ _ _ _ Hinv Hi).
  - intros k st e st1 tr1 Hk Hi Hinv. exact (iteration_invariant _ _ _ _ _ Hinv Hi).
  - intros k st st1 tr1 r st2 tr2 Hk Hi _ IH Hinv.
    destruct (iteration_invariant _ _ _ _ _ Hinv Hi) as [Hinv1 Ht1].
    destruct (IH Hinv1) as [Hinv2 Ht2].
    split; [exact Hinv2|]. autorewrite with trace. apply Forall_app. auto.
Qed.

(** The permit is held at every request and at no sleep. *)
Lemma check_proxy_loop_permits k st :
  let tr := trace_of (check_proxy_loop cfg w proxy proxy_type k st) in
  Forall (fun held => held = 1%nat) (permits_at_requests 0 tr)
  /\ Forall (fun held => held = 0%nat) (permits_at_sleeps 0 tr)
  /\ permits 0 tr = 0%nat.
Proof.
  apply (check_proxy_loop_passes
           (fun _ _ run =>
              Forall (fun held => held = 1%nat)
                     (permits_at_requests 0 (trace_of run))
              /\ Forall (fun held => held = 0%nat)
                        (permits_at_sleeps 0 (trace_of run))
              /\ permits 0 (trace_of run) = 0%nat));
    clear k st; unfold trace_of; simpl.
  - intros k st Hk. repeat split; constructor.
  - intros k st st1 tr1 Hk Hi.
    apply iteration_permits in Hi as [Hp [Hs Hr]]. auto.
  - intros k st e st1 tr1 Hk Hi.
    apply iteration_permits in Hi as [Hp [Hs Hr]]. auto.
  - intros k st st1 tr1 r st2 tr2 Hk Hi _ [IHr [IHs IHp]].
    apply iteration_permits in Hi as [Hp [Hs Hr]].
    autorewrite with trace. rewrite Hp.
    repeat split; [apply Forall_app; auto|apply Forall_app; auto|exact IHp].
Qed.

(** Whatever a call writes is the proxy and a newline, and a call that
    reports exhausted retries has written nothing. *)
Lemma check_proxy_loop_written k st :
  let tr := trace_of (check_proxy_loop cfg w proxy proxy_type k st) in
  Forall (fun text => text = proxy +:+ newline) (written tr)
  /\ (give_ups tr <> 0%nat -> written tr = []).
Proof.
  apply (check_proxy_loop_passes
           (fun _ _ run =>
              Forall (fun text => text = proxy +:+ newline) (written (trace_of run))
              /\ (give_ups (trace_of run) <> 0%nat -> written (trace_of run) = [])));
    clear k st; unfold trace_of; simpl.
  - intros k st Hk. split; [constructor|reflexivity].
  - intros k st st1 tr1 Hk Hi.
    apply iteration_written in Hi as [Hw [_ Hg]].
    split; [exact Hw|]. intros H. contradiction.
  - intros k st e st1 tr1 Hk Hi.
    apply iteration_written in Hi as [Hw [_ Hg]].
    split; [exact Hw|]. intros H. contradiction.
  - intros k st st1 tr1 r st2 tr2 Hk Hi _ [IHw IHg].
    apply iteration_written in Hi as [_ [Hw Hg]].
    autorewrite with trace. rewrite Hw, Hg by reflexivity.
    simpl. split; assumption.
Qed.

(** When every request raises, the loop uses all its passes: each one
    sends a request, sleeps and retries, and line 182 reports once. *)
Lemma check_proxy_loop_all_fail t :
  (2 <= fields proxy)%nat ->
  aio_proxy_type proxy_type = Ok t ->
  forall (n : nat) (k : Z) (st : stats),
    Z.of_nat n = max_retry cfg + 1 - k ->
    (forall j, k <= j <= max_retry cfg ->
       (exists e, net w j = Fails e)
       /\ exists rate,
            proxies_per_minute (total_proxies_checked st + (j - k) + 1)
                               (perf_counter w j) (start_time cfg) = Ok rate) ->
    let run := check_proxy_loop cfg w proxy proxy_type k st in
    outcome_of run = Ok tt
    /\ attempts (trace_of run) = n
    /\ probes (trace_of run) = n
    /\ sleeps (trace_of run) = n
    /\ give_ups (trace_of run) = 1%nat
    /\ written (trace_of run) = []
    /\ good_proxies (stats_of run) = good_proxies st.
Proof.
  intros Hf Ht n.
  induction n as [|n IH]; intros k st Hn Hall run; subst run;
    rewrite check_proxy_loop_eq.
  - assert (Hk : (k <=? max_retry cfg) = false) by (apply Z.leb_gt; lia).
    rewrite Hk. repeat split.
  - assert (Hk : (k <=? max_retry cfg) = true) by (apply Z.leb_le; lia).
    rewrite Hk.
    destruct (Hall k ltac:(lia)) as [[e Hnet] [rate Hrate]].
    replace (total_proxies_checked st + (k - k) + 1)
      with (total_proxies_checked st + 1) in Hrate by lia.
    destruct (iteration_request_fails k st t e rate Hf Ht Hnet Hrate)
      as [host [port [u [p ->]]]].
    specialize (IH (k + 1)
                  (Stats (total_proxies_checked st + 1) (good_proxies st) rate)
                  ltac:(lia)).
    destruct IH as [Ho [Ha [Hp [Hs [Hg [Hw Hgood]]]]]].
    { intros j Hj. destruct (Hall j ltac:(lia)) as [Hnetj [ratej Hratej]].
      split; [exact Hnetj|]. exists ratej. simpl.
      replace (total_proxies_checked st + 1 + (j - (k + 1)) + 1)
        with (total_proxies_checked st + (j - k) + 1) by lia.
      exact Hratej. }
    destruct (after_parts
                [Acquire; Get t host port u p; Release;
                 Print (failure_report cfg proxy e); Sleep (retry_delay cfg);
                 Title (total_proxies_checked st + 1) (good_proxies st) rate]
                (check_proxy_loop cfg w proxy proxy_type (k + 1)
                   (Stats (total_proxies_checked st + 1) (good_proxies st) rate)))
      as [-> [-> ->]].
    autorewrite with trace.
    rewrite Ho, Ha, Hp, Hs, Hg, Hw, Hgood.
    clear. destruct e; repeat split.
Qed.

(** An exception of the [finally] clause leaves [check_proxy]. *)
Lemma check_proxy_rate_raises st e :
  0 <= max_retry cfg ->
  proxies_per_minute (total_proxies_checked st + 1)
                     (perf_counter w 0) (start_time cfg) = Raise e ->
  outcome_of (check_proxy cfg w proxy proxy_type st) = Raise e
  /\ titles (trace_of (check_proxy cfg w proxy proxy_type st)) = [].
Proof.
  intros Hmax Hrate. unfold check_proxy. rewrite check_proxy_loop_eq.
  assert (Hk : (0 <=? max_retry cfg) = true) by (apply Z.leb_le; lia).
  rewrite Hk.
  destruct (iteration cfg w proxy proxy_type 0 st) as [[r st1] tr1] eqn:Hi.
  pass_shapes Hi; simpl in *; try congruence;
    (assert (e0 = e) by congruence); subst; split; reflexivity.
Qed.

End CheckProxy.

(** ** The round trip through the output file *)

(** A line the parser kept is kept again, unchanged, when it is read
    back with a newline after it. *)
Lemma read_lines_written raw :
  valid_proxy (PyStr.strip raw) = true ->
  read_lines [PyStr.strip raw +:+ newline] [] = [PyStr.strip raw].
Proof.
  intros Hvalid. unfold read_lines.
  rewrite PyStrFacts.strip_line_newline.
  unfold valid_proxy in Hvalid.
  destruct (PyStr.contains colon (PyStr.strip raw)); [|discriminate].
  simpl in Hvalid. rewrite Hvalid. reflexivity.
Qed.

(** ** The claims about [check_proxy] *)

(** C1 (the code departs from the claim).  [total_proxies_checked]
    counts passes of the loop, not descriptors: over one call it grows by
    the number of attempts.  With the default [max_retry = 1], one
    descriptor that always times out adds 2, the first of them before the
    retry (the title shows 1, then 2); one that succeeds on its second
    attempt adds 2 as well.  [good_proxies] grows by 0 or 1. *)
Theorem total_counts_every_attempt :
  (forall cfg w proxy proxy_type st,
     let run := check_proxy cfg w proxy proxy_type st in
     total_proxies_checked (stats_of run)
     = total_proxies_checked st + Z.of_nat (attempts (trace_of run))
     /\ (good_proxies (stats_of run) = good_proxies st
         \/ good_proxies (stats_of run) = good_proxies st + 1))
  /\ (let run := check_proxy default_checker world_timeouts
                   "1.2.3.4:8080" "HTTP" init_stats in
      total_proxies_checked (stats_of run) = 2
      /\ titles (trace_of run) = [(1, 0); (2, 0)])
  /\ (let run := check_proxy default_checker world_second_try
                   "1.2.3.4:8080" "HTTP" init_stats in
      total_proxies_checked (stats_of run) = 2
      /\ good_proxies (stats_of run) = 1
      /\ titles (trace_of run) = [(1, 0); (2, 1)]).
Proof.
  split; [|split].
  - intros cfg w proxy proxy_type st run. subst run. unfold check_proxy.
    split.
    + apply check_proxy_loop_total.
    + apply check_proxy_loop_good.
  - vm_compute. split; reflexivity.
  - vm_compute. repeat split; reflexivity.
Qed.

(** C2 (the code departs from the claim).  A protocol name that is not
    one of the four raises [ValueError] inside the [try] statement, where
    the second handler catches it: the call sleeps and tries again like
    after a network error, and ends by reporting exhausted retries; the
    [ValueError] never leaves [check_proxy]. *)
Theorem unknown_protocol_is_retried :
  check_proxy default_checker (world_status 200) "1.2.3.4:8080" "FTP" init_stats
  = (Ok tt, Stats 2 0 12,
     [Acquire; Release;
      Print (FailureError "1.2.3.4:8080" "Invalid proxy type"); Sleep 3;
      Title 1 0 12;
      Acquire; Release;
      Print (FailureError "1.2.3.4:8080" "Invalid proxy type"); Sleep 3;
      Title 2 0 12;
      Print (ExceededRetries "1.2.3.4:8080")]).
Proof. vm_compute. reflexivity. Qed.

(** C3, as stated, fails: with one retry left, a 404 ends the call after
    a single request, with no sleep. *)
Lemma bad_status_not_retried :
  max_retry default_checker = 1
  /\ net (world_status 404) 0 = Status 404 1
  /\ check_proxy default_checker (world_status 404) "1.2.3.4:8080" "HTTP" init_stats
     = (Ok tt, Stats 1 0 12,
        [Acquire; Get HTTP "1.2.3.4" "8080" None None;
         Print (FailureStatus "1.2.3.4:8080" 1); Release; Title 1 0 12])
  /\ sleeps (trace_of (check_proxy default_checker (world_status 404)
                         "1.2.3.4:8080" "HTTP" init_stats)) = 0%nat
  /\ probes (trace_of (check_proxy default_checker (world_status 404)
                         "1.2.3.4:8080" "HTTP" init_stats)) = 1%nat.
Proof. vm_compute. repeat split; reflexivity. Qed.

(** C4. With [max_retry = 1], a descriptor whose every request times
    out gets exactly 2 requests and exactly 1 report that the retries
    are exhausted (as long as the throughput computation of the two
    passes does not raise); and for every run and every retry budget
    [max_retry >= 0] the number of attempts is at most [max_retry + 1]. *)
Theorem check_proxy_attempts cfg w proxy proxy_type st :
  (max_retry cfg = 1 ->
   (2 <= fields proxy)%nat ->
   (exists t, aio_proxy_type proxy_type = Ok t) ->
   (forall k, net w k = Fails TimeoutError) ->
   (forall k, 0 <= k <= 1 ->
      exists rate,
        proxies_per_minute (total_proxies_checked st + k + 1)
                           (perf_counter w k) (start_time cfg) = Ok rate) ->
   probes (trace_of (check_proxy cfg w proxy proxy_type st)) = 2%nat
   /\ attempts (trace_of (check_proxy cfg w proxy proxy_type st)) = 2%nat
   /\ give_ups (trace_of (check_proxy cfg w proxy proxy_type st)) = 1%nat
   /\ outcome_of (check_proxy cfg w proxy proxy_type st) = Ok tt)
  /\ (0 <= max_retry cfg ->
      Z.of_nat (attempts (trace_of (check_proxy cfg w proxy proxy_type st)))
      <= max_retry cfg + 1).
Proof.
  split.
  - intros Hmax Hf [t Ht] Hnet Hclock.
    destruct (check_proxy_loop_all_fail cfg w proxy proxy_type t Hf Ht
                2%nat 0 st ltac:(lia)) as [Ho [Ha [Hp [_ [Hg _]]]]].
    { intros j Hj. split; [eauto|].
      replace (total_proxies_checked st + (j - 0) + 1)
        with (total_proxies_checked st + j + 1) by lia.
      apply Hclock. lia. }
    unfold check_proxy. auto.
  - intros Hmax. unfold check_proxy.
    pose proof (check_proxy_loop_attempts cfg w proxy proxy_type 0 st). lia.
Qed.

Lemma check_proxy_attempts_witness :
  probes (trace_of (check_proxy default_checker world_timeouts
                      "1.2.3.4:8080" "HTTP" init_stats)) = 2%nat
  /\ give_ups (trace_of (check_proxy default_checker world_timeouts
                           "1.2.3.4:8080" "HTTP" init_stats)) = 1%nat
  /\ Z.of_nat (attempts (trace_of (check_proxy default_checker world_timeouts
                                     "1.2.3.4:8080" "HTTP" init_stats)))
     <= max_retry default_checker + 1.
Proof.
  destruct (check_proxy_attempts default_checker world_timeouts
              "1.2.3.4:8080" "HTTP" init_stats) as [Hexact Hbound].
  destruct Hexact as [Hp [_ [Hg _]]].
  - reflexivity.
  - vm_compute. apply le_n.
  - exists HTTP. reflexivity.
  - intros k. reflexivity.
  - intros k Hk. assert (Hcases : k = 0 \/ k = 1) by lia.
    destruct Hcases as [-> | ->]; eexists; vm_compute; reflexivity.
  - split; [exact Hp|]. split; [exact Hg|]. apply Hbound. vm_compute. discriminate.
Defined.

(** C7, as stated, fails: in the run where both requests time out, no
    permit is held during either of the two sleeps. *)
Lemma permit_not_held_while_sleeping :
  permits_at_sleeps 0
    (trace_of (check_proxy default_checker world_timeouts
                 "1.2.3.4:8080" "HTTP" init_stats))
  = [0%nat; 0%nat]
  /\ check_proxy default_checker world_timeouts "1.2.3.4:8080" "HTTP" init_stats
     = (Ok tt, Stats 2 0 12,
        [Acquire; Get HTTP "1.2.3.4" "8080" None None; Release;
         Print (FailureTimeout "1.2.3.4:8080" 5); Sleep 3; Title 1 0 12;
         Acquire; Get HTTP "1.2.3.4" "8080" None None; Release;
         Print (FailureTimeout "1.2.3.4:8080" 5); Sleep 3; Title 2 0 12;
         Print (ExceededRetries "1.2.3.4:8080")]).
Proof. vm_compute. split; reflexivity. Qed.

(** C7, amended.  The permit is taken anew for each attempt and held
    for that attempt only: every request is made with the permit held,
    every retry delay is slept with no permit held, and the call ends
    with no permit held. *)
Theorem permit_held_per_attempt cfg w proxy proxy_type st :
  let tr := trace_of (check_proxy cfg w proxy proxy_type st) in
  Forall (fun held => held = 1%nat) (permits_at_requests 0 tr)
  /\ Forall (fun held => held = 0%nat) (permits_at_sleeps 0 tr)
  /\ permits 0 tr = 0%nat.
Proof. unfold check_proxy. apply check_proxy_loop_permits. Qed.

(** C8, as stated, fails: when the clock has not moved since the checker
    was created, the throughput computation divides by zero, and the
    exception leaves [check_proxy]. *)
Lemma rate_divides_by_zero :
  proxies_per_minute 1 (seconds 0) (seconds 0)
  = Raise (ZeroDivisionError "float division by zero")
  /\ check_proxy default_checker world_frozen "1.2.3.4:8080" "HTTP" init_stats
     = (Raise (ZeroDivisionError "float division by zero"), Stats 1 1 0,
        [Acquire; Get HTTP "1.2.3.4" "8080" None None;
         Print (Success "1.2.3.4:8080" 0);
         Write ("1.2.3.4:8080" +:+ newline); Release]).
Proof. vm_compute. split; reflexivity. Qed.

(** C8, amended.  The throughput is [round(total / elapsed_minutes)]
    with no guard: when the elapsed minutes are not zero it is the
    rounded quotient; when they are zero, as they are when no time has
    elapsed, the division raises [ZeroDivisionError], no title is shown
    and the exception leaves [check_proxy]. *)
Theorem rate_has_no_zero_guard total now start total_f :
  PyFloat.of_int total = Ok total_f ->
  (PyFloat.is_zero (elapsed_minutes now start) = false ->
   proxies_per_minute total now start
   = PyFloat.round (SFdiv PyFloat.prec PyFloat.emax total_f
                          (elapsed_minutes now start)))
  /\ (PyFloat.is_zero (elapsed_minutes now start) = true ->
      proxies_per_minute total now start
      = Raise (ZeroDivisionError "float division by zero"))
  /\ (PyFloat.is_zero (PyFloat.sub now start) = true ->
      proxies_per_minute total now start
      = Raise (ZeroDivisionError "float division by zero")
      /\ forall cfg w proxy proxy_type st,
           0 <= max_retry cfg ->
           total_proxies_checked st + 1 = total ->
           perf_counter w 0 = now -> start_time cfg = start ->
           outcome_of (check_proxy cfg w proxy proxy_type st)
           = Raise (ZeroDivisionError "float division by zero")
           /\ titles (trace_of (check_proxy cfg w proxy proxy_type st)) = []).
Proof.
  intros Hint.
  assert (Hzero : PyFloat.is_zero (elapsed_minutes now start) = true ->
                  proxies_per_minute total now start
                  = Raise (ZeroDivisionError "float division by zero")).
  { intros Hz. rewrite proxies_per_minute_eq, Hint. simpl.
    unfold PyFloat.truediv. now rewrite Hz. }
  split; [|split].
  - intros Hz. rewrite proxies_per_minute_eq, Hint. simpl.
    unfold PyFloat.truediv. now rewrite Hz.
  - exact Hzero.
  - intros Hz. apply elapsed_minutes_zero in Hz. split; [auto|].
    intros cfg w proxy proxy_type st Hmax Htotal Hnow Hstart.
    apply check_proxy_rate_raises; [exact Hmax|].
    rewrite Htotal, Hnow, Hstart. auto.
Qed.

Lemma rate_has_no_zero_guard_witness :
  outcome_of (check_proxy default_checker world_frozen
                "1.2.3.4:8080" "HTTP" init_stats)
  = Raise (ZeroDivisionError "float division by zero")
  /\ proxies_per_minute 1 (seconds 90) (seconds 0) = Ok 1.
Proof.
  split.
  - destruct (rate_has_no_zero_guard 1 (seconds 0) (seconds 0) (seconds 1) eq_refl)
      as [_ [_ Hfrozen]].
    destruct (Hfrozen eq_refl) as [_ Hrun].
    apply (Hrun default_checker world_frozen "1.2.3.4:8080" "HTTP" init_stats).
    + vm_compute. discriminate.
    + reflexivity.
    + reflexivity.
    + reflexivity.
  - destruct (rate_has_no_zero_guard 1 (seconds 90) (seconds 0) (seconds 1) eq_refl)
      as [Hquot _].
    rewrite (Hquot eq_refl). vm_compute. reflexivity.
Defined.

(** C9. Every line [check_proxy] appends to the output file for a
    descriptor that [read_proxy_file] returned is accepted when parsed
    again and gives back that descriptor; and a call that ends by
    reporting exhausted retries has written nothing. *)
Theorem saved_lines_round_trip fs filepath proxies proxy cfg w proxy_type st :
  read_proxy_file fs filepath = Ok proxies ->
  proxy ∈ proxies ->
  let tr := trace_of (check_proxy cfg w proxy proxy_type st) in
  Forall (fun text => read_lines [text] [] = [proxy]) (written tr)
  /\ (give_ups tr <> 0%nat -> written tr = []).
Proof.
  intros Hread Hin tr. subst tr.
  assert (Hraw : exists raw, proxy = PyStr.strip raw
                             /\ valid_proxy (PyStr.strip raw) = true).
  { destruct (fs filepath) as [lines|] eqn:Hfs.
    - destruct (read_proxy_file_valid_lines fs filepath lines Hfs proxies Hread proxy)
        as [Hp _].
      destruct (Hp Hin) as [raw [_ [-> Hf]]].
      exists raw. split; [reflexivity|]. now apply valid_proxy_iff.
    - pose proof (read_proxy_file_cases fs filepath) as Hc.
      rewrite Hfs in Hc. congruence. }
  destruct Hraw as [raw [-> Hvalid]].
  unfold check_proxy.
  destruct (check_proxy_loop_written cfg w (PyStr.strip raw) proxy_type 0 st)
    as [Hw Hg].
  split; [|exact Hg].
  eapply Forall_impl; [exact Hw|].
  intros text ->. now apply read_lines_written.
Qed.

Lemma saved_lines_round_trip_witness :
  let tr := trace_of (check_proxy default_checker (world_status 200)
                        "5.6.7.8:1080:user:pass" "SOCKS5" init_stats) in
  written tr = ["5.6.7.8:1080:user:pass" +:+ newline]
  /\ Forall (fun text => read_lines [text] [] = ["5.6.7.8:1080:user:pass"])
            (written tr).
Proof.
  split; [vm_compute; reflexivity|].
  refine (proj1 (saved_lines_round_trip
                   (fun _ => Some example_lines) "proxies.txt"
                   ["5.6.7.8:1080:user:pass"; "1.2.3.4:8080"]
                   "5.6.7.8:1080:user:pass"
                   default_checker (world_status 200) "SOCKS5" init_stats _ _)).
  - vm_compute. reflexivity.
  - left.
Defined.


(** * Further properties *)

(** ** More counting in a trace *)

Lemma successes_app tr1 tr2 :
  successes (tr1 ++ tr2) = (successes tr1 + successes tr2)%nat.
Proof. unfold successes. now rewrite List.filter_app, length_app. Qed.

Lemma slept_app tr1 tr2 : slept (tr1 ++ tr2) = slept tr1 + slept tr2.
Proof.
  induction tr1 as [|e tr1 IH]; simpl; [reflexivity|].
  destruct e; simpl; rewrite ?IH; lia.
Qed.

Lemma requests_app tr1 tr2 : requests (tr1 ++ tr2) = requests tr1 ++ requests tr2.
Proof.
  induction tr1 as [|e tr1 IH]; simpl; [reflexivity|].
  destruct e; simpl; now rewrite ?IH.
Qed.

#[local] Hint Rewrite successes_app slept_app requests_app : trace.

Lemma aio_proxy_type_unknown proxy_type :
  ~ In proxy_type known_protocols ->
  aio_proxy_type proxy_type = Raise (ValueError "Invalid proxy type").
Proof.
  intros Hnot. unfold aio_proxy_type.
  destruct (String.eqb_spec proxy_type "HTTP") as [->|_];
    [exfalso; apply Hnot; simpl; auto|].
  destruct (String.eqb_spec proxy_type "HTTPS") as [->|_];
    [exfalso; apply Hnot; simpl; auto|].
  destruct (String.eqb_spec proxy_type "SOCKS4") as [->|_];
    [exfalso; apply Hnot; simpl; auto|].
  destruct (String.eqb_spec proxy_type "SOCKS5") as [->|_];
    [exfalso; apply Hnot; simpl; auto|].
  reflexivity.
Qed.

Section CheckProxyRuns.

Variables (cfg : settings) (w : world) (proxy proxy_type : string).

(** Splits a pass into its shapes and names the exception printed. *)
Ltac each_shape Hi :=
  match type of Hi with
  | iteration _ _ _ _ ?k ?st = _ =>
      let Hs := fresh "Hs" in
      pose proof (iteration_cases cfg w proxy proxy_type k st) as Hs;
      rewrite Hi in Hs;
      inversion Hs; subst; clear Hs;
      match goal with
      | Ht : try_shape _ _ _ _ _ _ _ |- _ => inversion Ht; subst; clear Ht
      end;
      try match goal with
          | |- context [failure_report ?c ?p ?e] => destruct e
          end
  end.

(** *** What one pass adds to each count *)

Lemma iteration_counts k st r st1 tr1 :
  iteration cfg w proxy proxy_type k st = (r, st1, tr1) ->
  attempts tr1 = 1%nat
  /\ give_ups tr1 = 0%nat
  /\ (sleeps tr1 <= 1)%nat
  /\ slept tr1 = retry_delay cfg * Z.of_nat (sleeps tr1)
  /\ (r = Ok Retry -> sleeps tr1 = 1%nat)
  /\ (r = Ok Returned -> sleeps tr1 = 0%nat).
Proof.
  intros Hi. each_shape Hi; cbn; repeat split; try lia; try discriminate.
Qed.

Lemma iteration_successes k st r st1 tr1 :
  iteration cfg w proxy proxy_type k st = (r, st1, tr1) ->
  good_proxies st1 = good_proxies st + Z.of_nat (successes tr1)
  /\ (length (written tr1) <= successes tr1 <= 1)%nat
  /\ (successes tr1 = 1%nat -> exists rt, net w k = Status 200 rt)
  /\ (r = Ok Retry -> successes tr1 = 0%nat).
Proof.
  intros Hi. each_shape Hi; cbn; repeat split; try lia; try discriminate; eauto.
Qed.

Lemma iteration_raises k st e st1 tr1 :
  iteration cfg w proxy proxy_type k st = (Raise e, st1, tr1) ->
  proxies_per_minute (total_proxies_checked st + 1)
                     (perf_counter w k) (start_time cfg) = Raise e.
Proof.
  intros Hi.
  pose proof (iteration_cases cfg w proxy proxy_type k st) as Hs.
  rewrite Hi in Hs.
  inversion Hs as [r0 st0 tr0 rate Ht Hr|r0 st0 tr0 e0 Ht Hr]; subst.
  - inversion Ht.
  - inversion Ht; subst; exact Hr.
Qed.

Lemma iteration_probes k st r st1 tr1 :
  iteration cfg w proxy proxy_type k st = (r, st1, tr1) ->
  ((2 <= fields proxy)%nat -> (exists t, aio_proxy_type proxy_type = Ok t) ->
   probes tr1 = 1%nat)
  /\ ((fields proxy < 2)%nat
      \/ aio_proxy_type proxy_type = Raise (ValueError "Invalid proxy type") ->
      probes tr1 = 0%nat /\ successes tr1 = 0%nat /\ r <> Ok Returned).
Proof.
  intros Hi.
  each_shape Hi; cbn; split;
    try (intros Hf [t' Ht']; first [reflexivity | lia | congruence
         | match goal with H : _ \/ _ |- _ => destruct H; [lia|congruence] end]);
    try (intros [Hf|Hf]; first [lia | congruence
         | repeat split; discriminate]).
Qed.

(** *** Whole calls *)

(** An exception leaves the loop only from the throughput computation
    of one of its passes. *)
Lemma check_proxy_loop_raises k st e :
  outcome_of (check_proxy_loop cfg w proxy proxy_type k st) = Raise e ->
  exists j, k <= j <= max_retry cfg
            /\ proxies_per_minute (total_proxies_checked st + (j - k) + 1)
                                  (perf_counter w j) (start_time cfg) = Raise e
            /\ give_ups (trace_of (check_proxy_loop cfg w proxy proxy_type k st))
               = 0%nat.
Proof.
  revert e.
  apply (check_proxy_loop_passes cfg w proxy proxy_type
           (fun k st run =>
              forall e, outcome_of run = Raise e ->
              exists j, k <= j <= max_retry cfg
                /\ proxies_per_minute (total_proxies_checked st + (j - k) + 1)
                                      (perf_counter w j) (start_time cfg) = Raise e
                /\ give_ups (trace_of run) = 0%nat));
    clear k st; unfold outcome_of, trace_of; simpl.
  - intros k st Hk e H. discriminate.
  - intros k st st1 tr1 Hk Hi e H. discriminate.
  - intros k st e0 st1 tr1 Hk Hi e H. injection H as ->.
    exists k. split; [lia|]. replace (k - k) with 0 by lia. rewrite Z.add_0_r.
    split; [exact (iteration_raises _ _ _ _ _ Hi)|].
    apply iteration_counts in Hi. tauto.
  - intros k st st1 tr1 r st2 tr2 Hk Hi _ IH e H.
    destruct (IH e H) as [j [Hj [Hrate Hg]]].
    exists j. split; [lia|].
    destruct (iteration_total cfg w proxy proxy_type _ _ _ _ _ Hi) as [Ht _].
    rewrite Ht in Hrate.
    replace (total_proxies_checked st + (j - k) + 1)
      with (total_proxies_checked st + 1 + (j - (k + 1)) + 1) by lia.
    split; [exact Hrate|].
    apply iteration_counts in Hi as [_ [Hg1 _]].
    autorewrite with trace. rewrite Hg1, Hg. reflexivity.
Qed.

(** A call that reports exhausted retries has used every pass, slept
    after each of them, the last included, and changed neither
    [good_proxies] nor the output file. *)
Lemma check_proxy_loop_give_up k st :
  let run := check_proxy_loop cfg w proxy proxy_type k st in
  (give_ups (trace_of run) <= 1)%nat
  /\ (give_ups (trace_of run) = 1%nat ->
      outcome_of run = Ok tt
      /\ Z.of_nat (attempts (trace_of run)) = Z.max 0 (max_retry cfg + 1 - k)
      /\ sleeps (trace_of run) = attempts (trace_of run)
      /\ written (trace_of run) = []
      /\ good_proxies (stats_of run) = good_proxies st).
Proof.
  apply (check_proxy_loop_passes cfg w proxy proxy_type
           (fun k st run =>
              (give_ups (trace_of run) <= 1)%nat
              /\ (give_ups (trace_of run) = 1%nat ->
                  outcome_of run = Ok tt
                  /\ Z.of_nat (attempts (trace_of run))
                     = Z.max 0 (max_retry cfg + 1 - k)
                  /\ sleeps (trace_of run) = attempts (trace_of run)
                  /\ written (trace_of run) = []
                  /\ good_proxies (stats_of run) = good_proxies st)));
    clear k st; unfold outcome_of, trace_of, stats_of; simpl.
  - intros k st Hk. split; [cbn; lia|]. intros _. cbn. repeat split. lia.
  - intros k st st1 tr1 Hk Hi.
    apply iteration_counts in Hi as [_ [Hg _]]. rewrite Hg. split; [lia|discriminate].
  - intros k st e st1 tr1 Hk Hi.
    apply iteration_counts in Hi as [_ [Hg _]]. rewrite Hg. split; [lia|discriminate].
  - intros k st st1 tr1 r st2 tr2 Hk Hi _ [IHle IH].
    destruct (iteration_counts _ _ _ _ _ Hi) as [Ha [Hg [_ [_ [Hs _]]]]].
    destruct (iteration_good cfg w proxy proxy_type _ _ _ _ _ Hi) as [_ Hgood].
    destruct (Hgood eq_refl) as [Hgood1 Hw1].
    autorewrite with trace. rewrite Hg, Ha, (Hs eq_refl), Hw1. simpl.
    split; [exact IHle|]. intros H1.
    destruct (IH H1) as [Ho [Hatt [Hsl [Hwr Hgd]]]].
    repeat split; auto; try lia; congruence.
Qed.

(** Every sleep lasts [retry_delay], and there is one after each
    attempt but possibly the last. *)
Lemma check_proxy_loop_sleeps k st :
  let tr := trace_of (check_proxy_loop cfg w proxy proxy_type k st) in
  slept tr = retry_delay cfg * Z.of_nat (sleeps tr)
  /\ (sleeps tr <= attempts tr <= sleeps tr + 1)%nat.
Proof.
  apply (check_proxy_loop_passes cfg w proxy proxy_type
           (fun _ _ run =>
              slept (trace_of run) = retry_delay cfg * Z.of_nat (sleeps (trace_of run))
              /\ (sleeps (trace_of run) <= attempts (trace_of run)
                  <= sleeps (trace_of run) + 1)%nat));
    clear k st; unfold trace_of; simpl.
  - intros k st Hk. cbn. lia.
  - intros k st st1 tr1 Hk Hi.
    apply iteration_counts in Hi as [Ha [_ [Hs [Hsl _]]]]. lia.
  - intros k st e st1 tr1 Hk Hi.
    apply iteration_counts in Hi as [Ha [_ [Hs [Hsl _]]]]. lia.
  - intros k st st1 tr1 r st2 tr2 Hk Hi _ [IHsl IHs].
    apply iteration_counts in Hi as [Ha [_ [_ [Hsl [Hs _]]]]].
    autorewrite with trace. rewrite Hsl, IHsl, Ha, (Hs eq_refl). lia.
Qed.

(** [good_proxies] counts the successes printed, at most one a call,
    each after a response with status 200; a line is written only for a
    success. *)
Lemma check_proxy_loop_successes k st :
  let run := check_proxy_loop cfg w proxy proxy_type k st in
  good_proxies (stats_of run) = good_proxies st + Z.of_nat (successes (trace_of run))
  /\ (length (written (trace_of run)) <= successes (trace_of run) <= 1)%nat
  /\ (successes (trace_of run) = 1%nat ->
      exists j rt, k <= j <= max_retry cfg /\ net w j = Status 200 rt).
Proof.
  apply (check_proxy_loop_passes cfg w proxy proxy_type
           (fun k st run =>
              good_proxies (stats_of run)
              = good_proxies st + Z.of_nat (successes (trace_of run))
              /\ (length (written (trace_of run)) <= successes (trace_of run) <= 1)%nat
              /\ (successes (trace_of run) = 1%nat ->
                  exists j rt, k <= j <= max_retry cfg /\ net w j = Status 200 rt)));
    clear k st; unfold trace_of, stats_of; simpl.
  - intros k st Hk. cbn. repeat split; try lia; try discriminate.
  - intros k st st1 tr1 Hk Hi.
    apply iteration_successes in Hi as [Hg [Hw [Hn _]]].
    repeat split; try lia. intros H1. destruct (Hn H1) as [rt Hrt].
    exists k, rt. split; [lia|exact Hrt].
  - intros k st e st1 tr1 Hk Hi.
    apply iteration_successes in Hi as [Hg [Hw [Hn _]]].
    repeat split; try lia. intros H1. destruct (Hn H1) as [rt Hrt].
    exists k, rt. split; [lia|exact Hrt].
  - intros k st st1 tr1 r st2 tr2 Hk Hi _ [IHg [IHw IHn]].
    destruct (iteration_successes _ _ _ _ _ Hi) as [Hg [Hw [_ Hz]]].
    specialize (Hz eq_refl).
    autorewrite with trace. rewrite length_app, Hz in *. simpl.
    assert (Hlen : length (written tr1) = 0%nat) by lia. rewrite Hlen. simpl.
    repeat split; try lia.
    intros H1. destruct (IHn H1) as [j [rt [Hj Hrt]]].
    exists j, rt. split; [lia|exact Hrt].
Qed.

(** With a port and a known protocol every attempt sends a request;
    without one of them no attempt does, and none succeeds. *)
Lemma check_proxy_loop_probes k st :
  let tr := trace_of (check_proxy_loop cfg w proxy proxy_type k st) in
  ((2 <= fields proxy)%nat -> (exists t, aio_proxy_type proxy_type = Ok t) ->
   probes tr = attempts tr)
  /\ ((fields proxy < 2)%nat
      \/ aio_proxy_type proxy_type = Raise (ValueError "Invalid proxy type") ->
      probes tr = 0%nat /\ successes tr = 0%nat).
Proof.
  apply (check_proxy_loop_passes cfg w proxy proxy_type
           (fun _ _ run =>
              ((2 <= fields proxy)%nat ->
               (exists t, aio_proxy_type proxy_type = Ok t) ->
               probes (trace_of run) = attempts (trace_of run))
              /\ ((fields proxy < 2)%nat
                  \/ aio_proxy_type proxy_type
                     = Raise (ValueError "Invalid proxy type") ->
                  probes (trace_of run) = 0%nat
                  /\ successes (trace_of run) = 0%nat)));
    clear k st; unfold trace_of; simpl.
  - intros k st Hk. split; intros; repeat split.
  - intros k st st1 tr1 Hk Hi.
    destruct (iteration_counts _ _ _ _ _ Hi) as [Ha _].
    destruct (iteration_probes _ _ _ _ _ Hi) as [Hyes Hno].
    split; [intros Hf Ht; rewrite Ha; auto|].
    intros Hbad. destruct (Hno Hbad) as [Hp [Hs _]]. auto.
  - intros k st e st1 tr1 Hk Hi.
    destruct (iteration_counts _ _ _ _ _ Hi) as [Ha _].
    destruct (iteration_probes _ _ _ _ _ Hi) as [Hyes Hno].
    split; [intros Hf Ht; rewrite Ha; auto|].
    intros Hbad. destruct (Hno Hbad) as [Hp [Hs _]]. auto.
  - intros k st st1 tr1 r st2 tr2 Hk Hi _ [IHyes IHno].
    destruct (iteration_counts _ _ _ _ _ Hi) as [Ha _].
    destruct (iteration_probes _ _ _ _ _ Hi) as [Hyes Hno].
    autorewrite with trace. split.
    + intros Hf Ht. rewrite Ha, (Hyes Hf Ht), (IHyes Hf Ht). reflexivity.
    + intros Hbad. destruct (Hno Hbad) as [Hp [Hs _]].
      destruct (IHno Hbad) as [Hp2 Hs2]. rewrite Hp, Hs, Hp2, Hs2. auto.
Qed.

(** *** A pass whose request is answered *)

Lemma iteration_response k st t status rt r st1 tr1 :
  (2 <= fields proxy)%nat ->
  aio_proxy_type proxy_type = Ok t ->
  net w k = Status status rt ->
  iteration cfg w proxy proxy_type k st = (r, st1, tr1) ->
  r <> Ok Retry
  /\ attempts tr1 = 1%nat /\ probes tr1 = 1%nat
  /\ sleeps tr1 = 0%nat /\ give_ups tr1 = 0%nat
  /\ successes tr1 = (if status =? 200 then 1%nat else 0%nat)
  /\ written tr1 = (if status =? 200
                    then match disk w k with
                         | None => [proxy +:+ newline]
                         | Some _ => []
                         end
                    else [])
  /\ (forall err, status = 200 -> disk w k = Some err ->
        In (Print (ErrorSavingProxy err)) tr1)
  /\ total_proxies_checked st1 = total_proxies_checked st + 1.
Proof.
  intros Hf Ht Hnet Hi.
  each_shape Hi;
    try (match goal with H : _ \/ _ |- _ => destruct H; [lia|congruence] end);
    try congruence;
    match goal with
    | H : net w k = Status _ _ |- _ =>
        rewrite Hnet in H; injection H as ? ?; subst
    end;
    try (match goal with
         | H : ?s <> 200 |- _ => rewrite (proj2 (Z.eqb_neq s 200) H)
         end);
    try (match goal with H : disk w k = _ |- _ => rewrite H end);
    cbn; repeat split; try discriminate; try lia; try congruence;
    try (intros err' _ Herr; congruence);
    try (intros err' _ Herr; injection Herr as <-; tauto).
Qed.

(** The call ends with the first attempt whose request is answered:
    [m] failed attempts, each followed by a sleep, then the answered
    one. *)
Lemma check_proxy_loop_first_response t n status rt :
  (2 <= fields proxy)%nat ->
  aio_proxy_type proxy_type = Ok t ->
  net w n = Status status rt ->
  n <= max_retry cfg ->
  forall (m : nat) (k : Z) (st : stats),
    Z.of_nat m = n - k ->
    (forall j, k <= j < n ->
       (exists e, net w j = Fails e)
       /\ exists rate,
            proxies_per_minute (total_proxies_checked st + (j - k) + 1)
                               (perf_counter w j) (start_time cfg) = Ok rate) ->
    let run := check_proxy_loop cfg w proxy proxy_type k st in
    attempts (trace_of run) = S m
    /\ probes (trace_of run) = S m
    /\ sleeps (trace_of run) = m
    /\ give_ups (trace_of run) = 0%nat
    /\ successes (trace_of run) = (if status =? 200 then 1%nat else 0%nat)
    /\ written (trace_of run) = (if status =? 200
                                 then match disk w n with
                                      | None => [proxy +:+ newline]
                                      | Some _ => []
                                      end
                                 else [])
    /\ (forall err, status = 200 -> disk w n = Some err ->
          In (Print (ErrorSavingProxy err)) (trace_of run))
    /\ total_proxies_checked (stats_of run)
       = total_proxies_checked st + Z.of_nat m + 1.
Proof.
  intros Hf Ht Hnet Hn m.
  induction m as [|m IH]; intros k st Hm Hall run; subst run;
    rewrite check_proxy_loop_eq;
    (assert (Hk : (k <=? max_retry cfg) = true) by (apply Z.leb_le; lia));
    rewrite Hk.
  - assert (k = n) by lia. subst k.
    destruct (iteration cfg w proxy proxy_type n st) as [[r st1] tr1] eqn:Hi.
    destruct (iteration_response n st t status rt r st1 tr1 Hf Ht Hnet Hi)
      as [Hr [Ha [Hp [Hs [Hg [Hsu [Hw [He Htot]]]]]]]].
    destruct r as [[|]|e]; [|contradiction|];
      unfold trace_of, stats_of; simpl; repeat split; auto; lia.
  - destruct (Hall k ltac:(lia)) as [[e Hnetk] [rate Hrate]].
    replace (total_proxies_checked st + (k - k) + 1)
      with (total_proxies_checked st + 1) in Hrate by lia.
    destruct (iteration_request_fails cfg w proxy proxy_type k st t e rate
                Hf Ht Hnetk Hrate) as [host [port [u [p ->]]]].
    specialize (IH (k + 1)
                  (Stats (total_proxies_checked st + 1) (good_proxies st) rate)
                  ltac:(lia)).
    destruct IH as [Ha [Hp [Hs [Hg [Hsu [Hw [He Htot]]]]]]].
    { intros j Hj. destruct (Hall j ltac:(lia)) as [Hnetj [ratej Hratej]].
      split; [exact Hnetj|]. exists ratej. simpl.
      replace (total_proxies_checked st + 1 + (j - (k + 1)) + 1)
        with (total_proxies_checked st + (j - k) + 1) by lia.
      exact Hratej. }
    destruct (after_parts
                [Acquire; Get t host port u p; Release;
                 Print (failure_report cfg proxy e); Sleep (retry_delay cfg);
                 Title (total_proxies_checked st + 1) (good_proxies st) rate]
                (check_proxy_loop cfg w proxy proxy_type (k + 1)
                   (Stats (total_proxies_checked st + 1) (good_proxies st) rate)))
      as [_ [-> ->]].
    autorewrite with trace.
    rewrite Ha, Hp, Hs, Hg, Hsu, Hw, Htot. simpl in *.
    repeat split; try (clear; destruct e; reflexivity); try lia.
    intros err H200 Herr. do 6 right. auto.
Qed.

(** *** What the connector is given *)

Lemma try_requests k st host port rest t :
  PyStr.split colon proxy = host :: port :: rest ->
  aio_proxy_type proxy_type = Ok t ->
  requests (trace_of (try_except (try_body w proxy proxy_type k)
                                 (handler cfg proxy) st))
  = [match rest with
     | [username; password] => (t, host, port, Some username, Some password)
     | _ => (t, host, port, None, None)
     end].
Proof.
  intros Esplit Et.
  unfold try_except, try_body, with_semaphore, try_finally, request, save_proxy.
  rewrite Esplit.
  destruct rest as [|u [|pw [|x rest]]];
    cbn -[handler]; rewrite Et; cbn -[handler];
    (destruct (net w k) as [status rt|e]; cbn -[handler];
     [destruct (status =? 200); cbn; destruct (disk w k); cbn
     |rewrite handler_run; cbn]);
    reflexivity.
Qed.

Lemma iteration_requests k st host port rest t :
  PyStr.split colon proxy = host :: port :: rest ->
  aio_proxy_type proxy_type = Ok t ->
  requests (trace_of (iteration cfg w proxy proxy_type k st))
  = [match rest with
     | [username; password] => (t, host, port, Some username, Some password)
     | _ => (t, host, port, None, None)
     end].
Proof.
  intros Esplit Et.
  pose proof (try_requests k st host port rest t Esplit Et) as Htry.
  unfold iteration, try_finally.
  destruct (try_except _ _ st) as [[r st1] tr1].
  rewrite finally_block_run.
  destruct (proxies_per_minute _ _ _); unfold trace_of in *; simpl in *;
    autorewrite with trace; rewrite Htry; reflexivity.
Qed.

Lemma check_proxy_loop_requests k st host port rest t :
  PyStr.split colon proxy = host :: port :: rest ->
  aio_proxy_type proxy_type = Ok t ->
  Forall (fun given =>
            given = match rest with
                    | [username; password] =>
                        (t, host, port, Some username, Some password)
                    | _ => (t, host, port, None, None)
                    end)
         (requests (trace_of (check_proxy_loop cfg w proxy proxy_type k st))).
Proof.
  intros Esplit Et.
  apply (check_proxy_loop_passes cfg w proxy proxy_type
           (fun _ _ run =>
              Forall (fun given =>
                        given = match rest with
                                | [username; password] =>
                                    (t, host, port, Some username, Some password)
                                | _ => (t, host, port, None, None)
                                end)
                     (requests (trace_of run))));
    clear k st; unfold trace_of; simpl.
  - intros k st Hk. constructor.
  - intros k st st1 tr1 Hk Hi.
    pose proof (iteration_requests k st host port rest t Esplit Et) as H.
    rewrite Hi in H. unfold trace_of in H. simpl in H. rewrite H.
    repeat constructor.
  - intros k st e st1 tr1 Hk Hi.
    pose proof (iteration_requests k st host port rest t Esplit Et) as H.
    rewrite Hi in H. unfold trace_of in H. simpl in H. rewrite H.
    repeat constructor.
  - intros k st st1 tr1 r st2 tr2 Hk Hi _ IH.
    pose proof (iteration_requests k st host port rest t Esplit Et) as H.
    rewrite Hi in H. unfold trace_of in H. simpl in H.
    autorewrite with trace. rewrite H. constructor; [reflexivity|exact IH].
Qed.

End CheckProxyRuns.

Lemma aio_proxy_type_known proxy_type :
  In proxy_type known_protocols -> exists t, aio_proxy_type proxy_type = Ok t.
Proof.
  simpl. intros [<-|[<-|[<-|[<-|[]]]]]; eexists; reflexivity.
Qed.

(** Without a port or a connector type no pass returns, so a call that
    does not raise ends by reporting exhausted retries. *)
Lemma check_proxy_loop_no_return cfg w proxy proxy_type k st :
  (fields proxy < 2)%nat
  \/ aio_proxy_type proxy_type = Raise (ValueError "Invalid proxy type") ->
  outcome_of (check_proxy_loop cfg w proxy proxy_type k st) = Ok tt ->
  give_ups (trace_of (check_proxy_loop cfg w proxy proxy_type k st)) = 1%nat.
Proof.
  intros Hbad.
  apply (check_proxy_loop_passes cfg w proxy proxy_type
           (fun _ _ run => outcome_of run = Ok tt ->
                           give_ups (trace_of run) = 1%nat));
    clear k st; unfold outcome_of, trace_of; simpl.
  - intros k st Hk _. reflexivity.
  - intros k st st1 tr1 Hk Hi _.
    destruct (iteration_probes cfg w proxy proxy_type _ _ _ _ _ Hi) as [_ Hno].
    destruct (Hno Hbad) as [_ [_ Hr]]. contradiction.
  - intros k st e st1 tr1 Hk Hi H. discriminate.
  - intros k st st1 tr1 r st2 tr2 Hk Hi _ IH H.
    destruct (iteration_counts cfg w proxy proxy_type _ _ _ _ _ Hi) as [_ [Hg _]].
    autorewrite with trace. rewrite Hg. simpl. exact (IH H).
Qed.

(** ** Extra properties of [check_proxy] *)



(** X2. The call ends with the first attempt whose request gets a
    response: after [n] failed attempts within the budget there are
    [n + 1] requests and [n] sleeps, no report of exhausted retries, one
    success exactly when the status is 200, and the proxy is written
    exactly when the status is 200 and the write succeeds. *)
Theorem first_response_ends_call cfg w proxy proxy_type st t n status rt :
  0 <= n <= max_retry cfg ->
  (2 <= fields proxy)%nat ->
  aio_proxy_type proxy_type = Ok t ->
  (forall j, 0 <= j < n ->
     (exists e, net w j = Fails e)
     /\ exists rate,
          proxies_per_minute (total_proxies_checked st + j + 1)
                             (perf_counter w j) (start_time cfg) = Ok rate) ->
  net w n = Status status rt ->
  let run := check_proxy cfg w proxy proxy_type st in
  Z.of_nat (attempts (trace_of run)) = n + 1
  /\ Z.of_nat (probes (trace_of run)) = n + 1
  /\ Z.of_nat (sleeps (trace_of run)) = n
  /\ give_ups (trace_of run) = 0%nat
  /\ successes (trace_of run) = (if status =? 200 then 1%nat else 0%nat)
  /\ written (trace_of run) = (if status =? 200
                               then match disk w n with
                                    | None => [proxy +:+ newline]
                                    | Some _ => []
                                    end
                               else [])
  /\ total_proxies_checked (stats_of run) = total_proxies_checked st + n + 1.
Proof.
  intros Hn Hf Ht Hall Hnet run. subst run. unfold check_proxy.
  destruct (check_proxy_loop_first_response cfg w proxy proxy_type t n status rt
              Hf Ht Hnet ltac:(lia) (Z.to_nat n) 0 st ltac:(lia))
    as [Ha [Hp [Hs [Hg [Hsu [Hw [_ Htot]]]]]]].
  { intros j Hj.
    replace (total_proxies_checked st + (j - 0) + 1)
      with (total_proxies_checked st + j + 1) by lia.
    apply Hall. lia. }
  rewrite Ha, Hp, Hs, Hg, Hsu, Hw, Htot. repeat split; lia.
Qed.

Lemma first_response_ends_call_witness :
  let run := check_proxy default_checker world_second_try
               "1.2.3.4:8080" "HTTP" init_stats in
  Z.of_nat (attempts (trace_of run)) = 2
  /\ Z.of_nat (sleeps (trace_of run)) = 1
  /\ written (trace_of run) = ["1.2.3.4:8080" +:+ newline].
Proof.
  destruct (first_response_ends_call default_checker world_second_try
              "1.2.3.4:8080" "HTTP" init_stats HTTP 1 200 1)
    as [Ha [_ [Hs [_ [_ [Hw _]]]]]].
  - vm_compute. split; discriminate.
  - vm_compute. apply le_n.
  - reflexivity.
  - intros j Hj. assert (j = 0) by lia. subst j.
    split; eexists; vm_compute; reflexivity.
  - reflexivity.
  - split; [exact Ha|]. split; [exact Hs|exact Hw].
Defined.

(** X3. A proxy that answers with 200 but cannot be appended to the
    output file is still counted in [good_proxies]: the error is
    printed, nothing is written, and the call returns without a retry. *)
Theorem unsaved_proxy_is_still_good cfg w proxy proxy_type st t rt err :
  0 <= max_retry cfg ->
  (2 <= fields proxy)%nat ->
  aio_proxy_type proxy_type = Ok t ->
  net w 0 = Status 200 rt ->
  disk w 0 = Some err ->
  let run := check_proxy cfg w proxy proxy_type st in
  good_proxies (stats_of run) = good_proxies st + 1
  /\ written (trace_of run) = []
  /\ In (Print (ErrorSavingProxy err)) (trace_of run)
  /\ attempts (trace_of run) = 1%nat
  /\ sleeps (trace_of run) = 0%nat.
Proof.
  intros Hmax Hf Ht Hnet Hdisk run. subst run. unfold check_proxy.
  destruct (check_proxy_loop_first_response cfg w proxy proxy_type t 0 200 rt
              Hf Ht Hnet Hmax 0%nat 0 st ltac:(lia))
    as [Ha [_ [Hs [_ [Hsu [Hw [He _]]]]]]].
  { intros j Hj. lia. }
  destruct (check_proxy_loop_successes cfg w proxy proxy_type 0 st) as [Hg _].
  rewrite Hg, Hsu, Hw, Hdisk, Ha, Hs. simpl.
  repeat split. apply (He err); [reflexivity|exact Hdisk].
Qed.

Lemma unsaved_proxy_is_still_good_witness :
  let run := check_proxy default_checker world_disk_full
               "1.2.3.4:8080" "HTTP" init_stats in
  good_proxies (stats_of run) = 1 /\ written (trace_of run) = [].
Proof.
  destruct (unsaved_proxy_is_still_good default_checker world_disk_full
              "1.2.3.4:8080" "HTTP" init_stats HTTP 1 "No space left on device")
    as [Hg [Hw _]].
  - vm_compute. discriminate.
  - vm_compute. apply le_n.
  - reflexivity.
  - reflexivity.
  - reflexivity.
  - split; [exact Hg|exact Hw].
Defined.

(** X4. For a descriptor without a port, or a protocol name that is not
    one of the four, no request is ever sent and nothing is counted as
    good or written; when no throughput computation raises, the call
    still goes through all [max_retry + 1] attempts, sleeping after each,
    before it reports exhausted retries. *)
Theorem no_request_without_port_or_protocol cfg w proxy proxy_type st :
  (fields proxy < 2)%nat \/ ~ In proxy_type known_protocols ->
  let run := check_proxy cfg w proxy proxy_type st in
  probes (trace_of run) = 0%nat
  /\ written (trace_of run) = []
  /\ good_proxies (stats_of run) = good_proxies st
  /\ ((forall k, 0 <= k <= max_retry cfg ->
         exists rate,
           proxies_per_minute (total_proxies_checked st + k + 1)
                              (perf_counter w k) (start_time cfg) = Ok rate) ->
      outcome_of run = Ok tt
      /\ give_ups (trace_of run) = 1%nat
      /\ Z.of_nat (attempts (trace_of run)) = Z.max 0 (max_retry cfg + 1)
      /\ sleeps (trace_of run) = attempts (trace_of run)).
Proof.
  intros Hbad run. subst run.
  assert (Hbad' : (fields proxy < 2)%nat
                  \/ aio_proxy_type proxy_type
                     = Raise (ValueError "Invalid proxy type")).
  { destruct Hbad as [H|H]; [left; exact H|right].
    now apply aio_proxy_type_unknown. }
  unfold check_proxy.
  destruct (check_proxy_loop_probes cfg w proxy proxy_type 0 st) as [_ Hno].
  destruct (Hno Hbad') as [Hp Hs].
  destruct (check_proxy_loop_successes cfg w proxy proxy_type 0 st)
    as [Hg [Hw _]].
  rewrite Hs in *. split; [exact Hp|]. split.
  { destruct (written _); [reflexivity|simpl in Hw; lia]. }
  split; [simpl in Hg; lia|].
  intros Hclock.
  assert (Ho : outcome_of (check_proxy_loop cfg w proxy proxy_type 0 st) = Ok tt).
  { destruct (outcome_of (check_proxy_loop cfg w proxy proxy_type 0 st))
      as [[]|e] eqn:E; [reflexivity|].
    destruct (check_proxy_loop_raises cfg w proxy proxy_type 0 st e E)
      as [j [Hj [Hrate _]]].
    destruct (Hclock j Hj) as [rate Hok].
    replace (total_proxies_checked st + (j - 0) + 1)
      with (total_proxies_checked st + j + 1) in Hrate by lia.
    congruence. }
  pose proof (check_proxy_loop_no_return cfg w proxy proxy_type 0 st Hbad' Ho)
    as Hgive.
  destruct (check_proxy_loop_give_up cfg w proxy proxy_type 0 st) as [_ Hall].
  destruct (Hall Hgive) as [_ [Ha [Hsl _]]].
  replace (max_retry cfg + 1 - 0) with (max_retry cfg + 1) in Ha by lia.
  auto.
Qed.

Lemma no_request_without_port_or_protocol_witness :
  let run := check_proxy default_checker (world_status 200)
               "1.2.3.4:8080" "FTP" init_stats in
  probes (trace_of run) = 0%nat
  /\ Z.of_nat (attempts (trace_of run)) = 2
  /\ sleeps (trace_of run) = attempts (trace_of run).
Proof.
  destruct (no_request_without_port_or_protocol default_checker (world_status 200)
              "1.2.3.4:8080" "FTP" init_stats)
    as [Hp [_ [_ Hall]]].
  - right. simpl. intros [H|[H|[H|[H|[]]]]]; discriminate H.
  - destruct Hall as [_ [_ [Ha Hs]]].
    + intros k Hk. assert (Hcases : k = 0 \/ k = 1)
        by (cbv [max_retry default_checker default_settings] in Hk; lia).
      destruct Hcases as [-> | ->]; eexists; vm_compute; reflexivity.
    + split; [exact Hp|]. split; [exact Ha|exact Hs].
Defined.

(** X5. A call reports exhausted retries at most once, and when it does
    it has made every attempt of the budget and slept [retry_delay] after
    each of them, the last one included; it has then written nothing and
    left [good_proxies] as it was.  With a negative [max_retry] that is
    zero attempts. *)
Theorem giving_up_uses_every_attempt cfg w proxy proxy_type st :
  let run := check_proxy cfg w proxy proxy_type st in
  (give_ups (trace_of run) <= 1)%nat
  /\ (give_ups (trace_of run) = 1%nat ->
      outcome_of run = Ok tt
      /\ Z.of_nat (attempts (trace_of run)) = Z.max 0 (max_retry cfg + 1)
      /\ sleeps (trace_of run) = attempts (trace_of run)
      /\ written (trace_of run) = []
      /\ good_proxies (stats_of run) = good_proxies st).
Proof.
  unfold check_proxy.
  destruct (check_proxy_loop_give_up cfg w proxy proxy_type 0 st) as [Hle Hall].
  split; [exact Hle|]. intros H1.
  replace (max_retry cfg + 1) with (max_retry cfg + 1 - 0) by lia.
  exact (Hall H1).
Qed.

Lemma giving_up_uses_every_attempt_witness :
  let run := check_proxy default_checker world_timeouts
               "1.2.3.4:8080" "HTTP" init_stats in
  Z.of_nat (attempts (trace_of run)) = 2
  /\ sleeps (trace_of run) = attempts (trace_of run).
Proof.
  destruct (giving_up_uses_every_attempt default_checker world_timeouts
              "1.2.3.4:8080" "HTTP" init_stats) as [_ Hall].
  destruct Hall as [_ [Ha [Hs _]]].
  - vm_compute. reflexivity.
  - split; [exact Ha|exact Hs].
Defined.

(** X6. Every sleep of a call lasts [retry_delay]; there is one after
    each attempt except possibly the last, so with a delay that is not
    negative a call sleeps for at most [retry_delay * (max_retry + 1)]
    seconds in all. *)
Theorem sleeping_time_bounded cfg w proxy proxy_type st :
  let tr := trace_of (check_proxy cfg w proxy proxy_type st) in
  slept tr = retry_delay cfg * Z.of_nat (sleeps tr)
  /\ (sleeps tr <= attempts tr <= sleeps tr + 1)%nat
  /\ (0 <= retry_delay cfg ->
      0 <= slept tr <= retry_delay cfg * Z.max 0 (max_retry cfg + 1)).
Proof.
  unfold check_proxy.
  destruct (check_proxy_loop_sleeps cfg w proxy proxy_type 0 st) as [Hsl Hs].
  pose proof (check_proxy_loop_attempts cfg w proxy proxy_type 0 st) as Ha.
  replace (max_retry cfg + 1 - 0) with (max_retry cfg + 1) in Ha by lia.
  split; [exact Hsl|]. split; [exact Hs|].
  intros Hdelay. rewrite Hsl. split.
  - apply Z.mul_nonneg_nonneg; lia.
  - apply Z.mul_le_mono_nonneg_l; lia.
Qed.

Lemma sleeping_time_bounded_witness :
  slept (trace_of (check_proxy default_checker world_timeouts
                     "1.2.3.4:8080" "HTTP" init_stats)) <= 3 * 2.
Proof.
  destruct (sleeping_time_bounded default_checker world_timeouts
              "1.2.3.4:8080" "HTTP" init_stats) as [_ [_ Hbound]].
  apply Hbound. vm_compute. discriminate.
Defined.

(** X7. [good_proxies] grows by the number of successes printed, which
    is 0 or 1 for a call; a success is printed only after a response
    with status 200, and a line is written only for a success. *)
Theorem good_counts_successes cfg w proxy proxy_type st :
  let run := check_proxy cfg w proxy proxy_type st in
  good_proxies (stats_of run)
  = good_proxies st + Z.of_nat (successes (trace_of run))
  /\ (length (written (trace_of run)) <= successes (trace_of run) <= 1)%nat
  /\ (good_proxies (stats_of run) <> good_proxies st ->
      exists k rt, 0 <= k <= max_retry cfg /\ net w k = Status 200 rt).
Proof.
  unfold check_proxy.
  destruct (check_proxy_loop_successes cfg w proxy proxy_type 0 st)
    as [Hg [Hw Hn]].
  split; [exact Hg|]. split; [exact Hw|].
  intros Hne. apply Hn. simpl in Hg. lia.
Qed.

Lemma good_counts_successes_witness :
  exists k rt, 0 <= k <= 1 /\ net world_second_try k = Status 200 rt.
Proof.
  destruct (good_counts_successes default_checker world_second_try
              "1.2.3.4:8080" "HTTP" init_stats) as [_ [_ Hn]].
  apply Hn. vm_compute. discriminate.
Defined.



(** ** Extra properties of [read_proxy_file] and [main] *)

Lemma read_proxy_file_elem_valid fs filepath proxies p :
  read_proxy_file fs filepath = Ok proxies ->
  p ∈ proxies ->
  exists raw, p = PyStr.strip raw /\ valid_proxy p = true.
Proof.
  intros Hread Hin.
  destruct (fs filepath) as [lines|] eqn:Hfs.
  - destruct (read_proxy_file_valid_lines fs filepath lines Hfs proxies Hread p)
      as [Hp _].
    destruct (Hp Hin) as [raw [_ [-> Hf]]].
    exists raw. split; [reflexivity|]. now apply valid_proxy_iff.
  - pose proof (read_proxy_file_cases fs filepath) as Hc.
    rewrite Hfs in Hc. congruence.
Qed.

Lemma list_of_set_same_elements l1 l2 :
  (forall p, p ∈ l1 <-> p ∈ l2) -> list_of_set l1 = list_of_set l2.
Proof.
  intros H. unfold list_of_set. f_equal.
  apply set_eq. intros p. rewrite !elem_of_list_to_set. apply H.
Qed.

(** X8. What [read_proxy_file] returns depends only on which lines
    occur in the file, not on their order or on how often each occurs:
    two files with the same lines give the same proxies, or both give
    the [ValueError] for a file without a valid line. *)
Theorem read_proxy_file_set_of_lines fs1 path1 lines1 fs2 path2 lines2 :
  fs1 path1 = Some lines1 ->
  fs2 path2 = Some lines2 ->
  (forall raw, raw ∈ lines1 <-> raw ∈ lines2) ->
  (forall proxies, read_proxy_file fs1 path1 = Ok proxies ->
     exists proxies', read_proxy_file fs2 path2 = Ok proxies'
                      /\ proxies ≡ₚ proxies')
  /\ (forall e, read_proxy_file fs1 path1 = Raise e ->
        read_proxy_file fs2 path2 = Raise e).
Proof.
  intros Hfs1 Hfs2 Hsame.
  assert (Hkept : forall p, p ∈ read_lines lines1 [] <-> p ∈ read_lines lines2 []).
  { intros p. rewrite !elem_of_read_lines.
    split; intros [raw [Hin H]]; exists raw; split; auto; now apply Hsame. }
  pose proof (read_proxy_file_cases fs1 path1) as H1.
  pose proof (read_proxy_file_cases fs2 path2) as H2.
  rewrite Hfs1 in H1. rewrite Hfs2 in H2.
  destruct (read_lines lines1 []) as [|p1 rest1] eqn:E1;
    destruct (read_lines lines2 []) as [|p2 rest2] eqn:E2.
  - split; [intros proxies H; congruence|]. intros e H. congruence.
  - exfalso. assert (Hp : p2 ∈ @nil string) by (apply Hkept; left).
    inversion Hp.
  - exfalso. assert (Hp : p1 ∈ @nil string) by (apply Hkept; left).
    inversion Hp.
  - split; [|intros e H; congruence].
    intros proxies H. rewrite H1 in H. injection H as <-.
    exists (list_of_set (p2 :: rest2)). split; [exact H2|].
    rewrite (list_of_set_same_elements _ _ Hkept). reflexivity.
Qed.

Lemma read_proxy_file_set_of_lines_witness :
  exists proxies',
    read_proxy_file
      (fun _ => Some ["5.6.7.8:1080:user:pass"; "bad-line"; "1.2.3.4:8080"])
      "shuffled.txt" = Ok proxies'
    /\ length proxies' = 2%nat.
Proof.
  destruct (read_proxy_file_set_of_lines
              (fun _ => Some example_lines) "proxies.txt" example_lines
              (fun _ => Some ["5.6.7.8:1080:user:pass"; "bad-line"; "1.2.3.4:8080"])
              "shuffled.txt"
              ["5.6.7.8:1080:user:pass"; "bad-line"; "1.2.3.4:8080"]
              eq_refl eq_refl) as [Hok _].
  - intros raw. unfold example_lines. rewrite !elem_of_cons, !elem_of_nil. tauto.
  - destruct (Hok (list_of_set ["1.2.3.4:8080"; "1.2.3.4:8080";
                                "5.6.7.8:1080:user:pass"]))
      as [proxies' [Hread Hperm]].
    + vm_compute. reflexivity.
    + exists proxies'. split; [exact Hread|].
      rewrite <- Hperm. vm_compute. reflexivity.
Defined.

(** X9. For a proxy that [read_proxy_file] returned and one of the four
    protocol names, every attempt of [check_proxy] sends a request: the
    descriptor always has a host and a port, so the [IndexError] path is
    never taken. *)
Theorem file_descriptors_reach_network
    fs filepath proxies proxy cfg w proxy_type st :
  read_proxy_file fs filepath = Ok proxies ->
  proxy ∈ proxies ->
  In proxy_type known_protocols ->
  let tr := trace_of (check_proxy cfg w proxy proxy_type st) in
  probes tr = attempts tr
  /\ exists host port rest, PyStr.split colon proxy = host :: port :: rest
                            /\ (rest = [] \/ length rest = 2%nat).
Proof.
  intros Hread Hin Hknown tr. subst tr.
  destruct (read_proxy_file_elem_valid fs filepath proxies proxy Hread Hin)
    as [raw [_ Hvalid]].
  apply valid_proxy_iff in Hvalid.
  assert (Hf : (2 <= fields proxy)%nat) by (destruct Hvalid; lia).
  split.
  - unfold check_proxy.
    destruct (check_proxy_loop_probes cfg w proxy proxy_type 0 st) as [Hyes _].
    apply Hyes; [exact Hf|]. now apply aio_proxy_type_known.
  - unfold fields in Hvalid.
    destruct (PyStr.split colon proxy) as [|host [|port rest]];
      [simpl in Hvalid; lia|simpl in Hvalid; lia|].
    exists host, port, rest. split; [reflexivity|].
    simpl in Hvalid. destruct rest; [left; reflexivity|right; simpl in *; lia].
Qed.

Lemma file_descriptors_reach_network_witness :
  let tr := trace_of (check_proxy default_checker world_timeouts
                        "5.6.7.8:1080:user:pass" "SOCKS4" init_stats) in
  probes tr = attempts tr.
Proof.
  refine (proj1 (file_descriptors_reach_network
                   (fun _ => Some example_lines) "proxies.txt"
                   ["5.6.7.8:1080:user:pass"; "1.2.3.4:8080"]
                   "5.6.7.8:1080:user:pass"
                   default_checker world_timeouts "SOCKS4" init_stats _ _ _)).
  - vm_compute. reflexivity.
  - left.
  - simpl. tauto.
Defined.

(** X10. Every request of a call is given the same connector
    arguments: the first field of the descriptor as host, the second as
    port, and the third and fourth as user name and password when there
    are exactly four fields; with any other number of fields no
    credentials are passed. *)
Theorem connector_gets_fields cfg w proxy proxy_type st t host port rest :
  PyStr.split colon proxy = host :: port :: rest ->
  aio_proxy_type proxy_type = Ok t ->
  let given := requests (trace_of (check_proxy cfg w proxy proxy_type st)) in
  (forall username password, rest = [username; password] ->
     Forall (fun args => args = (t, host, port, Some username, Some password))
            given)
  /\ (length rest <> 2%nat ->
      Forall (fun args => args = (t, host, port, None, None)) given).
Proof.
  intros Esplit Et given. subst given. unfold check_proxy.
  pose proof (check_proxy_loop_requests cfg w proxy proxy_type 0 st
                host port rest t Esplit Et) as Hall.
  split.
  - intros username password ->. exact Hall.
  - intros Hlen. destruct rest as [|u [|pw [|x rest]]];
      [exact Hall|exact Hall|simpl in Hlen; lia|exact Hall].
Qed.

Lemma connector_gets_fields_witness :
  Forall (fun args => args = (SOCKS5, "5.6.7.8", "1080", Some "user", Some "pass"))
         (requests (trace_of (check_proxy default_checker (world_status 200)
                                "5.6.7.8:1080:user:pass" "SOCKS5" init_stats))).
Proof.
  destruct (connector_gets_fields default_checker (world_status 200)
              "5.6.7.8:1080:user:pass" "SOCKS5" init_stats
              SOCKS5 "5.6.7.8" "1080" ["user"; "pass"] eq_refl eq_refl)
    as [Hcred _].
  exact (Hcred "user" "pass" eq_refl).
Defined.

Lemma read_lines_saved saved :
  Forall (fun p => exists raw, p = PyStr.strip raw /\ valid_proxy p = true) saved ->
  read_lines (List.map (fun p => p +:+ newline) saved) [] = saved.
Proof.
  intros Hall. rewrite read_lines_filter. simpl.
  induction Hall as [|p rest [raw [-> Hvalid]] _ IH]; simpl; [reflexivity|].
  rewrite PyStrFacts.strip_line_newline, Hvalid, IH. reflexivity.
Qed.

(** X11. The output file can be read back as a proxy file: a file whose
    lines are proxies that [read_proxy_file] returned, each followed by
    a newline as [save_proxy] writes them, is accepted, and what is read
    from it is exactly those proxies. *)
Theorem output_file_reads_back fs filepath proxies saved fs' filepath' :
  read_proxy_file fs filepath = Ok proxies ->
  saved <> [] ->
  (forall p, p ∈ saved -> p ∈ proxies) ->
  fs' filepath' = Some (List.map (fun p => p +:+ newline) saved) ->
  exists again,
    read_proxy_file fs' filepath' = Ok again
    /\ NoDup again
    /\ forall p, p ∈ again <-> p ∈ saved.
Proof.
  intros Hread Hne Hsub Hfs'.
  assert (Hall : Forall (fun p => exists raw, p = PyStr.strip raw
                                              /\ valid_proxy p = true) saved).
  { apply Forall_forall. intros p Hp.
    apply (read_proxy_file_elem_valid fs filepath proxies p Hread).
    apply Hsub. exact Hp. }
  pose proof (read_proxy_file_cases fs' filepath') as Hc.
  rewrite Hfs', (read_lines_saved saved Hall) in Hc.
  destruct saved as [|p rest]; [congruence|].
  exists (list_of_set (p :: rest)). split; [exact Hc|].
  split; [apply NoDup_list_of_set|].
  intros q. apply elem_of_list_of_set.
Qed.

Lemma output_file_reads_back_witness :
  exists again,
    read_proxy_file (fun _ => Some ["1.2.3.4:8080" +:+ newline]) "proxy_check.txt"
    = Ok again
    /\ forall p, p ∈ again <-> p ∈ ["1.2.3.4:8080"].
Proof.
  destruct (output_file_reads_back
              (fun _ => Some example_lines) "proxies.txt"
              ["5.6.7.8:1080:user:pass"; "1.2.3.4:8080"] ["1.2.3.4:8080"]
              (fun _ => Some ["1.2.3.4:8080" +:+ newline]) "proxy_check.txt")
    as [again [Hread [_ Hsame]]].
  - vm_compute. reflexivity.
  - discriminate.
  - intros p Hp. apply elem_of_cons in Hp as [->|Hp]; [right; left|inversion Hp].
  - reflexivity.
  - exists again. split; [exact Hread|exact Hsame].
Defined.



(** ** An extra property of the throughput *)

Lemma binary_round_aux_not_negative mx ex lx :
  not_negative (binary_round_aux PyFloat.prec PyFloat.emax false mx ex lx) = true.
Proof.
  unfold binary_round_aux.
  destruct (shr_fexp PyFloat.prec PyFloat.emax mx ex lx) as [mrs' e'].
  destruct (shr_fexp PyFloat.prec PyFloat.emax _ e' loc_Exact) as [mrs'' e''].
  destruct (shr_m mrs''); [reflexivity| |reflexivity].
  destruct (e'' <=? PyFloat.emax - PyFloat.prec); reflexivity.
Qed.

Lemma SFdiv_not_negative x y :
  not_negative x = true -> not_negative y = true -> PyFloat.is_zero y = false ->
  not_negative (SFdiv PyFloat.prec PyFloat.emax x y) = true.
Proof.
  destruct x as [sx|[|]| |[|] mx ex], y as [sy|[|]| |[|] my ey];
    simpl; try discriminate; try reflexivity; intros _ _ _.
  destruct (SFdiv_core_binary PyFloat.prec PyFloat.emax
              (Z.pos mx) ex (Z.pos my) ey) as [[mz ez] lz].
  apply binary_round_aux_not_negative.
Qed.

Lemma of_int_not_negative total total_f :
  0 <= total -> PyFloat.of_int total = Ok total_f -> not_negative total_f = true.
Proof.
  intros Hpos. unfold PyFloat.of_int, binary_normalize.
  destruct total as [|p|p]; [ | | lia].
  - intros H. injection H as <-. reflexivity.
  - unfold binary_round.
    destruct (shl_align _ _ _) as [mz ez].
    pose proof (binary_round_aux_not_negative (Z.pos mz) ez loc_Exact) as Hsign.
    destruct (binary_round_aux _ _ _ _ _ _) as [s|s| |s m e];
      intros H; try discriminate H; injection H as <-; exact Hsign.
Qed.

Lemma nearest_even_not_negative m e : 0 <= PyFloat.nearest_even m e.
Proof.
  unfold PyFloat.nearest_even.
  destruct (0 <=? e) eqn:He.
  - apply Z.leb_le in He. apply Z.mul_nonneg_nonneg; [lia|].
    apply Z.pow_nonneg. lia.
  - apply Z.leb_gt in He.
    assert (Hd : 0 < 2 ^ (- e)) by (apply Z.pow_pos_nonneg; lia).
    assert (Hq : 0 <= Z.pos m / 2 ^ (- e)) by (apply Z.div_pos; lia).
    destruct (2 * (Z.pos m mod 2 ^ (- e)) ?= 2 ^ (- e)); [|lia|lia].
    destruct (Z.even (Z.pos m / 2 ^ (- e))); lia.
Qed.

(** X13. The throughput is never negative: when the counter is not
    negative and the clock has not gone back since the checker was
    created, every rate the computation returns is at least 0. *)
Theorem rate_not_negative total now start rate :
  0 <= total ->
  not_negative (PyFloat.sub now start) = true ->
  proxies_per_minute total now start = Ok rate ->
  0 <= rate.
Proof.
  intros Htotal Helapsed.
  rewrite proxies_per_minute_eq.
  destruct (PyFloat.of_int total) as [total_f|e] eqn:Hint; simpl; [|discriminate].
  unfold PyFloat.truediv.
  destruct (PyFloat.is_zero (elapsed_minutes now start)) eqn:Hz; simpl;
    [discriminate|].
  assert (Hmin : not_negative (elapsed_minutes now start) = true).
  { unfold elapsed_minutes. apply SFdiv_not_negative;
      [exact Helapsed|reflexivity|reflexivity]. }
  pose proof (SFdiv_not_negative total_f (elapsed_minutes now start)
                (of_int_not_negative total total_f Htotal Hint) Hmin Hz) as Hq.
  destruct (SFdiv PyFloat.prec PyFloat.emax total_f (elapsed_minutes now start))
    as [s|s| |s m e]; simpl; intros H; try discriminate H.
  - injection H as <-. lia.
  - destruct s; [discriminate Hq|]. injection H as <-.
    apply nearest_even_not_negative.
Qed.

Lemma rate_not_negative_witness :
  proxies_per_minute 7 (seconds 90) (seconds 0) = Ok 5 /\ 0 <= 5.
Proof.
  split; [vm_compute; reflexivity|].
  apply (rate_not_negative 7 (seconds 90) (seconds 0) 5).
  - lia.
  - vm_compute. reflexivity.
  - vm_compute. reflexivity.
Defined.

(** * Reading failures, shared counters and retries *)

(** ** C6: every failure of [read_proxy_file] *)

(** On a path that is missing, or opens and is read to its end,
    [read_proxy_file_at] is [read_proxy_file]. *)
Lemma read_proxy_file_at_opening_of fs filepath :
  read_proxy_file_at (opening_of fs filepath) filepath
  = read_proxy_file fs filepath.
Proof.
  unfold read_proxy_file_at, read_proxy_file, read_proxy_file_try, opening_of.
  destruct (fs filepath); reflexivity.
Qed.

(** What [read_proxy_file_at] does, case by case. *)
Lemma read_proxy_file_at_cases x filepath :
  match raised x with
  | Some (FileNotFoundError _) =>
      read_proxy_file_at x filepath
      = Raise (FileNotFoundError ("The file " +:+ filepath +:+ " does not exist."))
  | Some (ValueError msg) =>
      read_proxy_file_at x filepath
      = Raise (ValueError ("An error occurred while reading the proxy file: "
                           +:+ msg))
  | Some e => read_proxy_file_at x filepath = Raise e
  | None =>
      exists lines,
        x = Readable lines None
        /\ match read_lines lines [] with
           | [] =>
               read_proxy_file_at x filepath
               = Raise (ValueError
                          ("An error occurred while reading the proxy file: "
                           +:+ "The file does not contain any valid proxies."))
           | p :: rest =>
               read_proxy_file_at x filepath = Ok (list_of_set (p :: rest))
           end
  end.
Proof.
  destruct x as [|e|lines [e|]]; simpl.
  - reflexivity.
  - destruct e; reflexivity.
  - destruct e; reflexivity.
  - exists lines. split; [reflexivity|].
    unfold read_proxy_file_at. simpl.
    destruct (read_lines lines []); reflexivity.
Qed.

(** C6, as stated, fails: a file that exists but may not be read makes
    [read_proxy_file] fail with a [PermissionError], which is neither of
    the two errors; and a file whose first line is a valid descriptor
    and which holds, further on, bytes that are not UTF-8 makes it raise
    [ValueError] although a valid descriptor was parsed. *)
Lemma read_proxy_file_fails_otherwise :
  read_proxy_file_at
    (Unopenable (OtherException "PermissionError"
                                "[Errno 13] Permission denied: 'proxies.txt'"))
    "proxies.txt"
  = Raise (OtherException "PermissionError"
                          "[Errno 13] Permission denied: 'proxies.txt'")
  /\ read_lines ["1.2.3.4:8080" +:+ newline] [] = ["1.2.3.4:8080"]
  /\ read_proxy_file_at
       (Readable ["1.2.3.4:8080" +:+ newline]
                 (Some (ValueError "'utf-8' codec can't decode byte 0xff")))
       "proxies.txt"
     = Raise (ValueError
                ("An error occurred while reading the proxy file: "
                 +:+ "'utf-8' codec can't decode byte 0xff")).
Proof. vm_compute. repeat split; reflexivity. Qed.

(** C6, amended.  [read_proxy_file] returns, and then a non-empty list,
    exactly when the file opens, is read to its end and has a valid
    line.  It raises [FileNotFoundError] exactly when opening or reading
    raised one, [ValueError] exactly when opening or reading raised one
    (valid lines read before are lost) or the file was read to its end
    without a valid line, and any other exception of opening or reading
    leaves it unchanged. *)
Theorem read_proxy_file_failures x filepath :
  ((exists proxies, read_proxy_file_at x filepath = Ok proxies)
   <-> exists lines raw,
         x = Readable lines None /\ raw ∈ lines
         /\ (fields (PyStr.strip raw) = 2%nat \/ fields (PyStr.strip raw) = 4%nat))
  /\ (forall proxies, read_proxy_file_at x filepath = Ok proxies -> proxies <> [])
  /\ ((exists msg, read_proxy_file_at x filepath = Raise (FileNotFoundError msg))
      <-> exists msg, raised x = Some (FileNotFoundError msg))
  /\ ((exists msg, read_proxy_file_at x filepath = Raise (ValueError msg))
      <-> (exists msg, raised x = Some (ValueError msg))
          \/ exists lines,
               x = Readable lines None
               /\ forall raw, raw ∈ lines ->
                    fields (PyStr.strip raw) <> 2%nat
                    /\ fields (PyStr.strip raw) <> 4%nat)
  /\ (forall e, (forall msg, e <> FileNotFoundError msg) ->
                (forall msg, e <> ValueError msg) ->
                (read_proxy_file_at x filepath = Raise e <-> raised x = Some e)).
Proof.
  pose proof (read_proxy_file_at_cases x filepath) as Hc.
  destruct (raised x) as [e0|] eqn:Hr.
  - assert (Hnot : forall lines, x <> Readable lines None).
    { intros lines ->. discriminate Hr. }
    destruct e0; rewrite Hc;
      (split; [split; [intros [? H]; discriminate H
                      |intros [lines [raw [Hx _]]]; destruct (Hnot _ Hx)]|]);
      (split; [discriminate|]);
      (split; [split; [intros [? H]; try discriminate H; eauto
                      |intros [? H]; try discriminate H; eauto]|]);
      (split; [split; [intros [? H]; try discriminate H; left; eauto
                      |intros [[? H]|[lines [Hx _]]];
                       [try discriminate H; eauto|destruct (Hnot _ Hx)]]|]);
      intros e Hfnf Hval;
      (split; [intros H; injection H as <-;
               first [reflexivity | exfalso; eapply Hfnf; reflexivity
                     | exfalso; eapply Hval; reflexivity]
              |intros H; injection H as <-;
               first [reflexivity | exfalso; eapply Hfnf; reflexivity
                     | exfalso; eapply Hval; reflexivity]]).
  - destruct Hc as [lines [-> Hc]].
    destruct (read_lines lines []) as [|p rest] eqn:E.
    + rewrite Hc. pose proof (proj1 (read_lines_nil_iff lines) E) as Hnone.
      split; [split; [intros [? H]; discriminate H|]|].
      { intros [lines' [raw [Hx [Hin Hf]]]]. injection Hx as <-.
        destruct (Hnone raw Hin). destruct Hf; contradiction. }
      split; [discriminate|].
      split; [split; intros [? H]; discriminate H|].
      split; [split; [intros _; right; exists lines; auto|eauto]|].
      intros e Hfnf Hval. split; [|discriminate].
      intros H. injection H as <-. exfalso. eapply Hval. reflexivity.
    + rewrite Hc.
      assert (Hp : p ∈ read_lines lines []) by (rewrite E; left).
      apply elem_of_read_lines in Hp as [raw [Hin [-> Hf]]].
      split; [split; [intros _; exists lines, raw; auto|eauto]|].
      split.
      { intros proxies H. injection H as <-.
        apply list_of_set_not_nil. discriminate. }
      split; [split; intros [? H]; discriminate H|].
      split.
      { split; [intros [? H]; discriminate H|].
        intros [[? H]|[lines' [Hx Hnone]]]; [discriminate H|].
        injection Hx as <-. apply read_lines_nil_iff in Hnone. congruence. }
      intros e _ _. split; discriminate.
Qed.

Lemma read_proxy_file_failures_witness :
  exists proxies,
    read_proxy_file_at (Readable ["1.2.3.4:8080" +:+ newline] None) "proxies.txt"
    = Ok proxies
    /\ proxies <> [].
Proof.
  destruct (read_proxy_file_failures
              (Readable ["1.2.3.4:8080" +:+ newline] None) "proxies.txt")
    as [_ [Hne _]].
  exists ["1.2.3.4:8080"].
  assert (Hrun : read_proxy_file_at (Readable ["1.2.3.4:8080" +:+ newline] None)
                                    "proxies.txt"
                 = Ok ["1.2.3.4:8080"]) by (vm_compute; reflexivity).
  split; [exact Hrun|exact (Hne _ Hrun)].
Defined.

(** ** C10: the counters that the coroutines of [main] share *)

Lemma try_body_guarded w proxy proxy_type k :
  try_body w proxy proxy_type k
  = with_semaphore (guarded_body w proxy proxy_type k).
Proof. reflexivity. Qed.

Lemma leave_run cfg proxy r st :
  leave cfg proxy r st
  = match r with
    | Ok f => (Ok f, st, [Release])
    | Raise e =>
        (Ok Retry, st,
         [Release; Print (failure_report cfg proxy e); Sleep (retry_delay cfg)])
    end.
Proof.
  unfold leave, try_except, try_finally, lift, emit.
  destruct r as [f|e]; [reflexivity|].
  rewrite handler_run. reflexivity.
Qed.

(** The [try] statement is the guarded lines, then [leave]. *)
Lemma try_statement_steps cfg w proxy proxy_type k st :
  try_except (try_body w proxy proxy_type k) (handler cfg proxy) st
  = match (emit Acquire ;; guarded_body w proxy proxy_type k)%py st with
    | (r, st1, tr1) => after tr1 (leave cfg proxy r st1)
    end.
Proof.
  rewrite try_body_guarded. unfold with_semaphore, try_except, try_finally.
  destruct ((emit Acquire ;; guarded_body w proxy proxy_type k)%py st)
    as [[r st1] tr1].
  rewrite leave_run. unfold emit, after.
  destruct r as [f|e]; [reflexivity|].
  rewrite handler_run, <- app_assoc. reflexivity.
Qed.

(** A pass of the loop is the guarded lines, then [leave] and the
    [finally] clause. *)
Lemma iteration_steps cfg w proxy proxy_type k st :
  iteration cfg w proxy proxy_type k st
  = match (emit Acquire ;; guarded_body w proxy proxy_type k)%py st with
    | (r, st1, tr1) =>
        after tr1 (try_finally (leave cfg proxy r) (finally_block cfg w k) st1)
    end.
Proof.
  unfold iteration, try_finally. rewrite try_statement_steps.
  destruct ((emit Acquire ;; guarded_body w proxy proxy_type k)%py st)
    as [[r st1] tr1].
  unfold after. destruct (leave cfg proxy r st1) as [[r2 st2] tr2].
  destruct (finally_block cfg w k st2) as [[[[]|e] st3] tr3];
    rewrite app_assoc; reflexivity.
Qed.

(** The guarded lines leave the counters alone, or add one to
    [good_proxies] and end without an exception. *)
Lemma guarded_body_counters w proxy proxy_type k st r st1 tr1 :
  (emit Acquire ;; guarded_body w proxy proxy_type k)%py st = (r, st1, tr1) ->
  st1 = st \/ (st1 = good_plus_one st /\ r = Ok Returned).
Proof.
  intros Hb.
  pose proof (try_cases default_checker w proxy proxy_type k st) as Hs.
  rewrite try_statement_steps, Hb, leave_run in Hs.
  destruct r as [f|e]; simpl in Hs; inversion Hs; subst; auto.
Qed.

Lemma finish_counters cfg w k m st p st2 tr :
  stats_of (m st) = st ->
  finish cfg w k m st = (p, st2, tr) ->
  total_proxies_checked st2 = total_proxies_checked st + 1
  /\ good_proxies st2 = good_proxies st
  /\ exists r, p = next_position k r.
Proof.
  unfold finish, try_finally, stats_of.
  destruct (m st) as [[r st1] tr1]. simpl. intros ->.
  rewrite finally_block_run.
  destruct (proxies_per_minute (total_proxies_checked st + 1)
                               (perf_counter w k) (start_time cfg));
    intros H; injection H as <- <- <-;
    (split; [reflexivity|split; [reflexivity|]]).
  - exists r. reflexivity.
  - exists (Raise e). reflexivity.
Qed.

(** After its [finally] clause a coroutine holds no permit. *)
Lemma next_position_free w proxy proxy_type k r :
  returning [Coroutine w proxy proxy_type (next_position k r)] = 0
  /\ held [Coroutine w proxy proxy_type (next_position k r)] = 0.
Proof. destruct r as [[|]|e]; split; reflexivity. Qed.

(** What a step of a coroutine does to the counters. *)
Lemma resume_counters cfg free c st c1 st1 tr1 :
  resume cfg free c st = (c1, st1, tr1) ->
  good_proxies st1 - total_proxies_checked st1 - returning [c1]
  <= good_proxies st - total_proxies_checked st - returning [c].
Proof.
  destruct c as [w proxy proxy_type [k|k [f|e]|k r|r]]; unfold resume;
    cbn [co_at co_world co_proxy co_proxy_type].
  - destruct (k <=? max_retry cfg).
    + destruct free.
      * destruct ((emit Acquire ;; guarded_body w proxy proxy_type k)%py st)
          as [[r st2] tr2] eqn:Hb.
        intros H; injection H as <- <- <-.
        destruct (guarded_body_counters _ _ _ _ _ _ _ _ Hb) as [->|[-> ->]];
          simpl; [destruct r|]; lia.
      * intros H; injection H as <- <- <-. simpl. lia.
    + intros H; injection H as <- <- <-. simpl. lia.
  - destruct (finish cfg w k (leave cfg proxy (Ok f)) st)
      as [[p st2] tr2] eqn:Hf.
    intros H; injection H as <- <- <-.
    apply finish_counters in Hf as [Ht [Hg [r ->]]];
      [|rewrite leave_run; reflexivity].
    destruct (next_position_free w proxy proxy_type k r) as [-> _].
    simpl. lia.
  - rewrite leave_run. intros H; injection H as <- <- <-. simpl. lia.
  - destruct (finish cfg w k (lift r) st) as [[p st2] tr2] eqn:Hf.
    intros H; injection H as <- <- <-.
    apply finish_counters in Hf as [Ht [Hg [r1 ->]]]; [|reflexivity].
    destruct (next_position_free w proxy proxy_type k r1) as [-> _].
    simpl. lia.
  - intros H; injection H as <- <- <-. simpl. lia.
Qed.

(** A step takes a permit only if one is free. *)
Lemma resume_held cfg free c st c1 st1 tr1 :
  resume cfg free c st = (c1, st1, tr1) ->
  held [c1] <= held [c] \/ (free = true /\ held [c1] = held [c] + 1).
Proof.
  destruct c as [w proxy proxy_type [k|k [f|e]|k r|r]]; unfold resume;
    cbn [co_at co_world co_proxy co_proxy_type].
  - destruct (k <=? max_retry cfg).
    + destruct free.
      * destruct ((emit Acquire ;; guarded_body w proxy proxy_type k)%py st)
          as [[r st2] tr2].
        intros H; injection H as <- <- <-. right. split; reflexivity.
      * intros H; injection H as <- <- <-. left. lia.
    + intros H; injection H as <- <- <-. left. simpl. lia.
  - destruct (finish cfg w k (leave cfg proxy (Ok f)) st)
      as [[p st2] tr2] eqn:Hf.
    intros H; injection H as <- <- <-.
    apply finish_counters in Hf as [_ [_ [r ->]]];
      [|rewrite leave_run; reflexivity].
    destruct (next_position_free w proxy proxy_type k r) as [_ ->].
    left. simpl. lia.
  - rewrite leave_run. intros H; injection H as <- <- <-. left. simpl. lia.
  - destruct (finish cfg w k (lift r) st) as [[p st2] tr2] eqn:Hf.
    intros H; injection H as <- <- <-.
    apply finish_counters in Hf as [_ [_ [r1 ->]]]; [|reflexivity].
    destruct (next_position_free w proxy proxy_type k r1) as [_ ->].
    left. simpl. lia.
  - intros H; injection H as <- <- <-. left. lia.
Qed.

Lemma returning_bounds pool : 0 <= returning pool <= held pool.
Proof.
  induction pool as [|c pool IH]; simpl; [lia|].
  destruct (co_at c) as [|? [|]| |]; lia.
Qed.

Lemma returning_insert pool : forall i c c1,
  pool !! i = Some c ->
  returning (<[i := c1]> pool) = returning pool - returning [c] + returning [c1].
Proof.
  induction pool as [|d pool IH]; intros i c c1 Hl; [discriminate Hl|].
  destruct i as [|i]; simpl in Hl.
  - injection Hl as ->. simpl.
    destruct (co_at c) as [|? [|]| |], (co_at c1) as [|? [|]| |]; lia.
  - simpl. rewrite (IH _ _ c1 Hl). simpl.
    destruct (co_at d) as [|? [|]| |]; lia.
Qed.

Lemma held_insert pool : forall i c c1,
  pool !! i = Some c ->
  held (<[i := c1]> pool) = held pool - held [c] + held [c1].
Proof.
  induction pool as [|d pool IH]; intros i c c1 Hl; [discriminate Hl|].
  destruct i as [|i]; simpl in Hl.
  - injection Hl as ->. simpl. destruct (co_at c), (co_at c1); lia.
  - simpl. rewrite (IH _ _ c1 Hl). simpl. destruct (co_at d); lia.
Qed.

(** The coroutines as line 203 creates them hold no permit. *)
Lemma tasks_held proxy_type proxies :
  held (tasks proxy_type proxies) = 0
  /\ returning (tasks proxy_type proxies) = 0.
Proof.
  induction proxies as [|job proxies IH]; simpl; [split; reflexivity|exact IH].
Qed.

(** When every coroutine has ended, none is returning. *)
Lemma returning_none pool :
  Forall (fun c => exists r, co_at c = Finished r) pool -> returning pool = 0.
Proof.
  induction 1 as [|c pool [r Hc] _ IH]; simpl; [reflexivity|].
  rewrite Hc. exact IH.
Qed.

(** Whatever the order in which the coroutines are resumed. *)
Lemma event_loop_counters cfg cap schedule :
  forall pool st pool1 st1 tr1,
    event_loop cfg cap schedule pool st = (pool1, st1, tr1) ->
    good_proxies st1 - total_proxies_checked st1 - returning pool1
    <= good_proxies st - total_proxies_checked st - returning pool.
Proof.
  induction schedule as [|i rest IH]; intros pool st pool1 st1 tr1; simpl.
  - intros H; injection H as <- <- <-. lia.
  - destruct (pool !! i) as [c|] eqn:Hl; [|apply IH].
    destruct (resume cfg (held pool <? cap) c st) as [[c2 st2] tr2] eqn:Hr.
    destruct (event_loop cfg cap rest (<[i := c2]> pool) st2)
      as [[pool3 st3] tr3] eqn:He.
    intros H; injection H as <- <- <-.
    apply IH in He. apply resume_counters in Hr.
    rewrite (returning_insert _ _ _ c2 Hl) in He. lia.
Qed.

(** The semaphore never gives more permits than it has. *)
Lemma event_loop_held cfg cap schedule :
  forall pool st pool1 st1 tr1,
    event_loop cfg cap schedule pool st = (pool1, st1, tr1) ->
    held pool <= cap -> held pool1 <= cap.
Proof.
  induction schedule as [|i rest IH]; intros pool st pool1 st1 tr1; simpl.
  - intros H; injection H as <- <- <-. auto.
  - destruct (pool !! i) as [c|] eqn:Hl; [|apply IH].
    destruct (resume cfg (held pool <? cap) c st) as [[c2 st2] tr2] eqn:Hr.
    destruct (event_loop cfg cap rest (<[i := c2]> pool) st2)
      as [[pool3 st3] tr3] eqn:He.
    intros H; injection H as <- <- <-. intros Hcap.
    apply (IH _ _ _ _ _ He).
    rewrite (held_insert _ _ _ c2 Hl).
    destruct (resume_held _ _ _ _ _ _ _ Hr) as [Hle|[Hfree Hone]]; [lia|].
    apply Z.ltb_lt in Hfree. lia.
Qed.

Lemma event_loop_app cfg cap s1 : forall s2 pool st,
  event_loop cfg cap (s1 ++ s2) pool st
  = match event_loop cfg cap s1 pool st with
    | (pool1, st1, tr1) =>
        match event_loop cfg cap s2 pool1 st1 with
        | (pool2, st2, tr2) => (pool2, st2, tr1 ++ tr2)
        end
    end.
Proof.
  induction s1 as [|i s1 IH]; intros s2 pool st; simpl.
  - destruct (event_loop cfg cap s2 pool st) as [[pool2 st2] tr2]. reflexivity.
  - destruct (pool !! i) as [c|]; [|apply IH].
    destruct (resume cfg (held pool <? cap) c st) as [[c1 st1] tr1].
    rewrite IH.
    destruct (event_loop cfg cap s1 (<[i := c1]> pool) st1) as [[pool2 st2] tr2].
    destruct (event_loop cfg cap s2 pool2 st2) as [[pool3 st3] tr3].
    rewrite app_assoc. reflexivity.
Qed.

Lemma event_loop_alone_step cfg cap c n st :
  event_loop cfg cap (repeat 0%nat (S n)) [c] st
  = match resume cfg (held [c] <? cap) c st with
    | (c1, st1, tr1) =>
        match event_loop cfg cap (repeat 0%nat n) [c1] st1 with
        | (pool2, st2, tr2) => (pool2, st2, tr1 ++ tr2)
        end
    end.
Proof. reflexivity. Qed.

Lemma resume_at_while cfg w proxy proxy_type k st :
  k <= max_retry cfg ->
  resume cfg true (Coroutine w proxy proxy_type (AtWhile k)) st
  = match (emit Acquire ;; guarded_body w proxy proxy_type k)%py st with
    | (r, st1, tr1) => (Coroutine w proxy proxy_type (AtExit k r), st1, tr1)
    end.
Proof.
  intros Hk. apply Z.leb_le in Hk. unfold resume.
  cbn [co_at co_world co_proxy co_proxy_type]. rewrite Hk. reflexivity.
Qed.

Lemma resume_at_return cfg free w proxy proxy_type k f st :
  resume cfg free (Coroutine w proxy proxy_type (AtExit k (Ok f))) st
  = match try_finally (leave cfg proxy (Ok f)) (finally_block cfg w k) st with
    | (r, st1, tr1) =>
        (Coroutine w proxy proxy_type (next_position k r), st1, tr1)
    end.
Proof.
  unfold resume, finish. simpl.
  destruct (try_finally (leave cfg proxy (Ok f)) (finally_block cfg w k) st)
    as [[r st1] tr1].
  reflexivity.
Qed.

Lemma resume_at_raise cfg free w proxy proxy_type k e st :
  resume cfg free (Coroutine w proxy proxy_type (AtExit k (Raise e))) st
  = (Coroutine w proxy proxy_type (Sleeping k (Ok Retry)), st,
     [Release; Print (failure_report cfg proxy e); Sleep (retry_delay cfg)]).
Proof. unfold resume. simpl. rewrite leave_run. reflexivity. Qed.

Lemma resume_sleeping cfg free w proxy proxy_type k r st :
  resume cfg free (Coroutine w proxy proxy_type (Sleeping k r)) st
  = match try_finally (lift r) (finally_block cfg w k) st with
    | (r1, st1, tr1) =>
        (Coroutine w proxy proxy_type (next_position k r1), st1, tr1)
    end.
Proof.
  unfold resume, finish. simpl.
  destruct (try_finally (lift r) (finally_block cfg w k) st) as [[r1 st1] tr1].
  reflexivity.
Qed.

(** A coroutine that is alone in the event loop goes through a pass of
    the loop as [iteration] does. *)
Lemma event_loop_pass cfg cap w proxy proxy_type k st :
  0 < cap -> k <= max_retry cfg ->
  exists n,
    event_loop cfg cap (repeat 0%nat n)
               [Coroutine w proxy proxy_type (AtWhile k)] st
    = match iteration cfg w proxy proxy_type k st with
      | (r, st1, tr1) =>
          ([Coroutine w proxy proxy_type (next_position k r)], st1, tr1)
      end.
Proof.
  intros Hcap Hk.
  assert (Hfree : (held [Coroutine w proxy proxy_type (AtWhile k)] <? cap)
                  = true) by (apply Z.ltb_lt; simpl; lia).
  rewrite iteration_steps.
  destruct ((emit Acquire ;; guarded_body w proxy proxy_type k)%py st)
    as [[[f|e] st1] tr1] eqn:Hb.
  - exists 2%nat.
    rewrite event_loop_alone_step, Hfree, resume_at_while, Hb by exact Hk.
    rewrite event_loop_alone_step, resume_at_return.
    unfold after.
    destruct (try_finally (leave cfg proxy (Ok f)) (finally_block cfg w k) st1)
      as [[r2 st2] tr2].
    simpl. rewrite app_nil_r. reflexivity.
  - exists 3%nat.
    rewrite event_loop_alone_step, Hfree, resume_at_while, Hb by exact Hk.
    rewrite event_loop_alone_step, resume_at_raise.
    rewrite event_loop_alone_step, resume_sleeping.
    unfold after, try_finally. rewrite leave_run. unfold lift.
    destruct (finally_block cfg w k st1) as [[[[]|e2] st2] tr2];
      simpl; rewrite app_nil_r; reflexivity.
Qed.

(** A coroutine that is alone in the event loop does what [check_proxy]
    does. *)
Lemma event_loop_alone cfg cap w proxy proxy_type :
  0 < cap ->
  forall k st,
  exists n,
    event_loop cfg cap (repeat 0%nat n)
               [Coroutine w proxy proxy_type (AtWhile k)] st
    = match check_proxy_loop cfg w proxy proxy_type k st with
      | (r, st1, tr1) => ([Coroutine w proxy proxy_type (Finished r)], st1, tr1)
      end.
Proof.
  intros Hcap.
  apply (check_proxy_loop_passes cfg w proxy proxy_type
           (fun k st run =>
              exists n,
                event_loop cfg cap (repeat 0%nat n)
                           [Coroutine w proxy proxy_type (AtWhile k)] st
                = match run with
                  | (r, st1, tr1) =>
                      ([Coroutine w proxy proxy_type (Finished r)], st1, tr1)
                  end)).
  - intros k st Hk. exists 1%nat. simpl. unfold resume. simpl.
    assert (E : (k <=? max_retry cfg) = false) by (apply Z.leb_gt; lia).
    rewrite E. reflexivity.
  - intros k st st1 tr1 Hk Hi.
    destruct (event_loop_pass cfg cap w proxy proxy_type k st Hcap Hk) as [n Hn].
    exists n. rewrite Hn, Hi. reflexivity.
  - intros k st e st1 tr1 Hk Hi.
    destruct (event_loop_pass cfg cap w proxy proxy_type k st Hcap Hk) as [n Hn].
    exists n. rewrite Hn, Hi. reflexivity.
  - intros k st st1 tr1 r st2 tr2 Hk Hi Hloop [n2 Hn2].
    destruct (event_loop_pass cfg cap w proxy proxy_type k st Hcap Hk) as [n1 Hn1].
    exists (n1 + n2)%nat.
    rewrite repeat_app, event_loop_app, Hn1, Hi. simpl next_position.
    rewrite Hn2. reflexivity.
Qed.

(** C10, as stated, fails for the coroutines that [main] gathers on the
    counters of one checker, with a semaphore of two permits.  The first
    coroutine is answered with 200, counts its proxy as good (line 157)
    and waits in the [return] of line 161; the second does the same; the
    first then runs its [finally] clause, after which [good_proxies] is 2
    and [total_proxies_checked] is 1, as the title shows. *)
Lemma good_exceeds_total_when_shared :
  let run := event_loop default_checker 2 [0; 1; 0]%nat two_good_proxies
                        init_stats in
  List.map co_at (fst (fst run)) = [Finished (Ok tt); AtExit 0 (Ok Returned)]
  /\ snd (fst run) = Stats 1 2 12
  /\ snd run
     = [Acquire; Get HTTP "1.2.3.4" "8080" None None;
        Print (Success "1.2.3.4:8080" 1); Write ("1.2.3.4:8080" +:+ newline);
        Acquire; Get HTTP "5.6.7.8" "1080" None None;
        Print (Success "5.6.7.8:1080" 1); Write ("5.6.7.8:1080" +:+ newline);
        Release; Title 1 2 12]
  /\ titles (snd run) = [(1, 2)].
Proof. vm_compute. repeat split; reflexivity. Qed.

(** C10, amended.  Started with [good_proxies <= total_proxies_checked],
    the coroutines that [main] gathers keep, in whatever order the event
    loop resumes them, [good_proxies <= total_proxies_checked + n], where
    [n] counts the coroutines that are in the [return] of line 161 (line
    157 may have run, the [finally] clause has not); [n] is at most the
    number of permits taken, which is at most [max_concurrent_tasks].  So
    [good_proxies <= total_proxies_checked] holds whenever no coroutine
    is there, in particular when all have ended.  A call of [check_proxy]
    that runs alone keeps [good_proxies <= total_proxies_checked] after
    each of its [finally] clauses (every title shows it), and is what the
    event loop does with one coroutine. *)
Theorem good_at_most_total_and_returning
    cfg max_concurrent_tasks proxy_type proxies schedule st :
  0 <= max_concurrent_tasks ->
  good_proxies st <= total_proxies_checked st ->
  (let run := event_loop cfg max_concurrent_tasks schedule
                         (tasks proxy_type proxies) st in
   let pool1 := fst (fst run) in
   let st1 := snd (fst run) in
   good_proxies st1 <= total_proxies_checked st1 + returning pool1
   /\ 0 <= returning pool1 <= held pool1
   /\ held pool1 <= max_concurrent_tasks
   /\ (returning pool1 = 0 -> good_proxies st1 <= total_proxies_checked st1)
   /\ (Forall (fun c => exists r, co_at c = Finished r) pool1 ->
       good_proxies st1 <= total_proxies_checked st1))
  /\ (forall w proxy,
        let alone := check_proxy cfg w proxy proxy_type st in
        good_proxies (stats_of alone) <= total_proxies_checked (stats_of alone)
        /\ Forall (fun shown => snd shown <= fst shown)
                  (titles (trace_of alone))
        /\ (0 < max_concurrent_tasks ->
            exists n,
              event_loop cfg max_concurrent_tasks (repeat 0%nat n)
                         (tasks proxy_type [(w, proxy)]) st
              = ([Coroutine w proxy proxy_type (Finished (outcome_of alone))],
                 stats_of alone, trace_of alone))).
Proof.
  intros Hcap Hinv. split.
  - destruct (event_loop cfg max_concurrent_tasks schedule
                         (tasks proxy_type proxies) st)
      as [[pool1 st1] tr1] eqn:He.
    simpl.
    pose proof (event_loop_counters _ _ _ _ _ _ _ _ He) as Hc.
    pose proof (event_loop_held _ _ _ _ _ _ _ _ He) as Hh.
    destruct (tasks_held proxy_type proxies) as [Hh0 Hr0].
    rewrite Hr0 in Hc. rewrite Hh0 in Hh.
    pose proof (returning_bounds pool1) as Hb.
    assert (Hmain : good_proxies st1
                    <= total_proxies_checked st1 + returning pool1) by lia.
    split; [exact Hmain|].
    split; [exact Hb|].
    split; [exact (Hh Hcap)|].
    split; [lia|].
    intros Hdone. rewrite (returning_none _ Hdone) in Hmain. lia.
  - intros w proxy. cbv zeta.
    destruct (check_proxy_loop_invariant cfg w proxy proxy_type 0 st Hinv)
      as [Hg Ht].
    split; [exact Hg|]. split; [exact Ht|].
    intros Hpos.
    destruct (event_loop_alone cfg max_concurrent_tasks w proxy proxy_type
                               Hpos 0 st) as [n Hn].
    exists n. unfold tasks. simpl List.map. rewrite Hn.
    unfold check_proxy, outcome_of, stats_of, trace_of.
    destruct (check_proxy_loop cfg w proxy proxy_type 0 st) as [[r st1] tr1].
    reflexivity.
Qed.

Lemma good_at_most_total_and_returning_witness :
  0 <= 2
  /\ good_proxies init_stats <= total_proxies_checked init_stats
  /\ (let run := event_loop default_checker 2 [0; 1; 0]%nat two_good_proxies
                            init_stats in
      good_proxies (snd (fst run))
      <= total_proxies_checked (snd (fst run)) + returning (fst (fst run))).
Proof.
  assert (H2 : 0 <= 2) by lia.
  assert (H0 : good_proxies init_stats <= total_proxies_checked init_stats)
    by (simpl; lia).
  split; [exact H2|]. split; [exact H0|].
  destruct (good_at_most_total_and_returning
              default_checker 2 "HTTP"
              [(world_status 200, "1.2.3.4:8080");
               (world_status 200, "5.6.7.8:1080")]
              [0; 1; 0]%nat init_stats H2 H0) as [[H _] _].
  exact H.
Defined.

(** ** C3: what leads to a retry *)

(** A pass is followed by another only after an exception in its [try]
    statement: the descriptor has no port, the protocol is unknown, or
    the request raised. *)
Lemma iteration_retry_cause cfg w proxy proxy_type k st st1 tr1 :
  iteration cfg w proxy proxy_type k st = (Ok Retry, st1, tr1) ->
  (fields proxy < 2)%nat
  \/ aio_proxy_type proxy_type = Raise (ValueError "Invalid proxy type")
  \/ exists e, net w k = Fails e.
Proof.
  intros Hi.
  pose proof (iteration_cases cfg w proxy proxy_type k st) as Hs.
  rewrite Hi in Hs.
  inversion Hs as [r st2 tr2 rate Ht _|]; subst.
  inversion Ht; subst; try tauto; eauto.
Qed.

Lemma check_proxy_loop_retry_cause cfg w proxy proxy_type k st :
  let tr := trace_of (check_proxy_loop cfg w proxy proxy_type k st) in
  forall j, k <= j -> j - k + 1 < Z.of_nat (attempts tr) ->
    (fields proxy < 2)%nat
    \/ aio_proxy_type proxy_type = Raise (ValueError "Invalid proxy type")
    \/ exists e, net w j = Fails e.
Proof.
  apply (check_proxy_loop_passes cfg w proxy proxy_type
           (fun k _ run =>
              forall j, k <= j -> j - k + 1 < Z.of_nat (attempts (trace_of run)) ->
                (fields proxy < 2)%nat
                \/ aio_proxy_type proxy_type
                   = Raise (ValueError "Invalid proxy type")
                \/ exists e, net w j = Fails e));
    clear k st; unfold trace_of; simpl.
  - intros k st _ j Hj Ha. unfold attempts in Ha. simpl in Ha. lia.
  - intros k st st1 tr1 _ Hi j Hj Ha.
    destruct (iteration_total _ _ _ _ _ _ _ _ _ Hi) as [_ Hone]. lia.
  - intros k st e st1 tr1 _ Hi j Hj Ha.
    destruct (iteration_total _ _ _ _ _ _ _ _ _ Hi) as [_ Hone]. lia.
  - intros k st st1 tr1 r st2 tr2 _ Hi _ IH j Hj Ha.
    destruct (iteration_total _ _ _ _ _ _ _ _ _ Hi) as [_ Hone].
    rewrite attempts_app, Hone in Ha.
    destruct (Z.eq_dec j k) as [->|Hne].
    + exact (iteration_retry_cause _ _ _ _ _ _ _ _ Hi).
    + apply IH; lia.
Qed.

(** The pass whose request is answered is the last one, and no sleep
    follows it. *)
Lemma check_proxy_loop_answer_is_last cfg w proxy proxy_type t k st :
  (2 <= fields proxy)%nat ->
  aio_proxy_type proxy_type = Ok t ->
  let tr := trace_of (check_proxy_loop cfg w proxy proxy_type k st) in
  forall j status rt, k <= j -> net w j = Status status rt ->
    Z.of_nat (attempts tr) <= j - k + 1 /\ Z.of_nat (sleeps tr) <= j - k.
Proof.
  intros Hf Ht.
  apply (check_proxy_loop_passes cfg w proxy proxy_type
           (fun k _ run =>
              forall j status rt, k <= j -> net w j = Status status rt ->
                Z.of_nat (attempts (trace_of run)) <= j - k + 1
                /\ Z.of_nat (sleeps (trace_of run)) <= j - k));
    clear k st; unfold trace_of; simpl.
  - intros k st _ j status rt Hj _. unfold attempts, sleeps. simpl. lia.
  - intros k st st1 tr1 _ Hi j status rt Hj Hnet.
    destruct (iteration_counts _ _ _ _ _ _ _ _ _ Hi)
      as [Ha [_ [_ [_ [_ Hs]]]]].
    rewrite Ha, (Hs eq_refl). lia.
  - intros k st e st1 tr1 _ Hi j status rt Hj Hnet.
    destruct (iteration_counts _ _ _ _ _ _ _ _ _ Hi)
      as [Ha [_ [Hs _]]].
    rewrite Ha. split; [lia|].
    destruct (Z.eq_dec j k) as [->|Hne]; [|lia].
    destruct (iteration_response _ _ _ _ _ _ _ _ _ _ _ _ Hf Ht Hnet Hi)
      as [_ [_ [_ [Hs0 _]]]].
    rewrite Hs0. lia.
  - intros k st st1 tr1 r st2 tr2 _ Hi _ IH j status rt Hj Hnet.
    destruct (iteration_counts _ _ _ _ _ _ _ _ _ Hi)
      as [Ha [_ [Hs _]]].
    destruct (Z.eq_dec j k) as [->|Hne].
    + destruct (iteration_response _ _ _ _ _ _ _ _ _ _ _ _ Hf Ht Hnet Hi)
        as [Hr _].
      congruence.
    + destruct (IH j status rt ltac:(lia) Hnet) as [IHa IHs].
      rewrite attempts_app, sleeps_app, Ha. lia.
Qed.

(** The pass that gets an answer other than 200 prints the failure of
    line 159. *)
Lemma check_proxy_loop_bad_status_printed cfg w proxy proxy_type t k st :
  (2 <= fields proxy)%nat ->
  aio_proxy_type proxy_type = Ok t ->
  let tr := trace_of (check_proxy_loop cfg w proxy proxy_type k st) in
  forall j status rt, k <= j -> net w j = Status status rt -> status <> 200 ->
    Z.of_nat (attempts tr) = j - k + 1 ->
    In (Print (FailureStatus proxy rt)) tr.
Proof.
  intros Hf Ht.
  apply (check_proxy_loop_passes cfg w proxy proxy_type
           (fun k _ run =>
              forall j status rt, k <= j -> net w j = Status status rt ->
                status <> 200 ->
                Z.of_nat (attempts (trace_of run)) = j - k + 1 ->
                In (Print (FailureStatus proxy rt)) (trace_of run)));
    clear k st; unfold trace_of; simpl.
  - intros k st _ j status rt Hj _ _ Ha. unfold attempts in Ha. simpl in Ha. lia.
  - intros k st st1 tr1 _ Hi j status rt Hj Hnet Hbad Ha.
    destruct (iteration_total _ _ _ _ _ _ _ _ _ Hi) as [_ Hone].
    assert (j = k) by lia. subst j.
    destruct (iteration_bad_status cfg w proxy proxy_type k st t status rt
                Hf Ht Hnet Hbad)
      as [host [port [u [p [r [rate [tr [Hrun _]]]]]]]].
    rewrite Hi in Hrun. injection Hrun as _ _ ->. simpl. auto.
  - intros k st e st1 tr1 _ Hi j status rt Hj Hnet Hbad Ha.
    destruct (iteration_total _ _ _ _ _ _ _ _ _ Hi) as [_ Hone].
    assert (j = k) by lia. subst j.
    destruct (iteration_bad_status cfg w proxy proxy_type k st t status rt
                Hf Ht Hnet Hbad)
      as [host [port [u [p [r [rate [tr [Hrun _]]]]]]]].
    rewrite Hi in Hrun. injection Hrun as _ _ ->. simpl. auto.
  - intros k st st1 tr1 r st2 tr2 _ Hi _ IH j status rt Hj Hnet Hbad Ha.
    destruct (iteration_total _ _ _ _ _ _ _ _ _ Hi) as [_ Hone].
    rewrite attempts_app, Hone in Ha.
    destruct (Z.eq_dec j k) as [->|Hne].
    + destruct (iteration_response _ _ _ _ _ _ _ _ _ _ _ _ Hf Ht Hnet Hi)
        as [Hr _].
      congruence.
    + apply in_or_app. right. apply (IH j status rt); [lia|assumption..|lia].
Qed.

(** C3, amended.  Only an exception leads to a retry: a pass of
    [check_proxy] is followed by another only if its [try] statement
    raised (no port in the descriptor, unknown protocol, or the request
    raised).  A request that is answered, whatever the status and at
    whatever attempt, is the last: no attempt and no sleep follows it,
    and within the retry budget nothing reports exhausted retries.  When
    the requests before attempt [n] raised and request [n] is answered
    with a status other than 200, the call makes [n + 1] requests, sleeps
    [n] times, prints the failure of line 159, writes nothing and leaves
    [good_proxies] as it was. *)
Theorem bad_status_is_final cfg w proxy proxy_type st t :
  let run := check_proxy cfg w proxy proxy_type st in
  (forall n, 0 <= n -> n + 1 < Z.of_nat (attempts (trace_of run)) ->
     (fields proxy < 2)%nat
     \/ aio_proxy_type proxy_type = Raise (ValueError "Invalid proxy type")
     \/ exists e, net w n = Fails e)
  /\ ((2 <= fields proxy)%nat ->
      aio_proxy_type proxy_type = Ok t ->
      (forall n status rt, 0 <= n -> net w n = Status status rt ->
         Z.of_nat (attempts (trace_of run)) <= n + 1
         /\ Z.of_nat (sleeps (trace_of run)) <= n
         /\ (n <= max_retry cfg -> give_ups (trace_of run) = 0%nat))
      /\ (forall n status rt,
            0 <= n <= max_retry cfg ->
            (forall j, 0 <= j < n ->
               (exists e, net w j = Fails e)
               /\ exists rate,
                    proxies_per_minute (total_proxies_checked st + j + 1)
                                       (perf_counter w j) (start_time cfg)
                    = Ok rate) ->
            net w n = Status status rt ->
            status <> 200 ->
            Z.of_nat (attempts (trace_of run)) = n + 1
            /\ Z.of_nat (probes (trace_of run)) = n + 1
            /\ Z.of_nat (sleeps (trace_of run)) = n
            /\ give_ups (trace_of run) = 0%nat
            /\ successes (trace_of run) = 0%nat
            /\ written (trace_of run) = []
            /\ In (Print (FailureStatus proxy rt)) (trace_of run)
            /\ good_proxies (stats_of run) = good_proxies st
            /\ total_proxies_checked (stats_of run)
               = total_proxies_checked st + n + 1)).
Proof.
  intros run. subst run. unfold check_proxy. split.
  - intros n Hn Ha.
    apply (check_proxy_loop_retry_cause cfg w proxy proxy_type 0 st n); lia.
  - intros Hf Ht.
    assert (Hlast : forall n status rt, 0 <= n -> net w n = Status status rt ->
              Z.of_nat (attempts (trace_of (check_proxy_loop cfg w proxy
                                              proxy_type 0 st))) <= n + 1
              /\ Z.of_nat (sleeps (trace_of (check_proxy_loop cfg w proxy
                                               proxy_type 0 st))) <= n).
    { intros n status rt Hn Hnet.
      destruct (check_proxy_loop_answer_is_last cfg w proxy proxy_type t 0 st
                  Hf Ht n status rt Hn Hnet) as [Ha Hs].
      lia. }
    split.
    + intros n status rt Hn Hnet.
      destruct (Hlast n status rt Hn Hnet) as [Ha Hs].
      split; [exact Ha|]. split; [exact Hs|].
      intros Hmax.
      destruct (check_proxy_loop_give_up cfg w proxy proxy_type 0 st)
        as [Hle Hone].
      destruct (give_ups (trace_of (check_proxy_loop cfg w proxy proxy_type 0 st)))
        as [|[|g]]; [reflexivity| |lia].
      destruct (Hone eq_refl) as [_ [Hall [Hsl _]]]. lia.
    + intros n status rt Hn Hall Hnet Hbad.
      destruct (check_proxy_loop_first_response cfg w proxy proxy_type t n
                  status rt Hf Ht Hnet ltac:(lia) (Z.to_nat n) 0 st ltac:(lia))
        as [Ha [Hp [Hs [Hg [Hsu [Hw [_ Htot]]]]]]].
      { intros j Hj.
        replace (total_proxies_checked st + (j - 0) + 1)
          with (total_proxies_checked st + j + 1) by lia.
        apply Hall. lia. }
      apply Z.eqb_neq in Hbad as Hneq. rewrite Hneq in Hsu, Hw.
      destruct (check_proxy_loop_successes cfg w proxy proxy_type 0 st)
        as [Hgood _].
      rewrite Hsu in Hgood.
      split; [lia|]. split; [lia|]. split; [lia|]. split; [exact Hg|].
      split; [exact Hsu|]. split; [exact Hw|].
      split.
      { apply (check_proxy_loop_bad_status_printed cfg w proxy proxy_type t 0 st
                 Hf Ht n status rt); [lia|exact Hnet|exact Hbad|lia]. }
      split; lia.
Qed.

Lemma bad_status_is_final_witness :
  let run := check_proxy default_checker world_timeout_then_404
               "1.2.3.4:8080" "HTTP" init_stats in
  net world_timeout_then_404 0 = Fails TimeoutError
  /\ net world_timeout_then_404 1 = Status 404 1
  /\ Z.of_nat (attempts (trace_of run)) = 2
  /\ Z.of_nat (sleeps (trace_of run)) = 1
  /\ give_ups (trace_of run) = 0%nat
  /\ written (trace_of run) = []
  /\ In (Print (FailureStatus "1.2.3.4:8080" 1)) (trace_of run).
Proof.
  destruct (bad_status_is_final default_checker world_timeout_then_404
              "1.2.3.4:8080" "HTTP" init_stats HTTP) as [_ Hfinal].
  destruct Hfinal as [_ Hexact].
  - vm_compute. apply le_n.
  - reflexivity.
  - destruct (Hexact 1 404 1) as [Ha [_ [Hs [Hg [_ [Hw [Hp _]]]]]]].
    + vm_compute. split; discriminate.
    + intros j Hj. assert (j = 0) by lia. subst j.
      split; eexists; vm_compute; reflexivity.
    + reflexivity.
    + discriminate.
    + split; [reflexivity|]. split; [reflexivity|].
      split; [exact Ha|]. split; [exact Hs|]. split; [exact Hg|].
      split; [exact Hw|exact Hp].
Defined.
